(** * traefik-provider: the per-endpoint fetch-and-transform pipeline

    A shallow embedding of package [internal] (client.go, config.go):
    endpoint descriptors and URI construction, the start-up connectivity
    gate [PrepareClients], the fetcher [httpCall], the transformer
    [prepareResponse] and their composition [FetchRaw].

    Conventions of the embedding:
    - a Go [string] is a [string] (a sequence of bytes);
    - a Go [int] that is only formatted or compared is a [Z];
    - a Go map is a [gmap]; a [range] over a map visits every entry once,
      in an order the language leaves open, so the loop takes the visiting
      order as an argument and the theorems quantify over every order;
    - a Go pointer is an [option] ([None] is [nil]); dereferencing [nil]
      panics, and a computation that may panic returns [option]
      ([None] is the panic);
    - the network is a state-passing oracle ([Network]). *)

From Stdlib Require Import Ascii.
From stdpp Require Import gmap strings list fin_maps pretty.

Local Open Scope Z_scope.

(** ** Go's [strings] package, as far as the program uses it *)

Module strings.

(** [strings.HasSuffix]: [len(s) >= len(suffix) &&
    s[len(s)-len(suffix):] == suffix]. *)
Definition HasSuffix (s suffix : string) : bool :=
  (String.length suffix <=? String.length s)%nat &&
  String.eqb
    (String.substring (String.length s - String.length suffix)
                      (String.length suffix) s)
    suffix.

(** [strings.Split] for a separator of one byte: the pieces of [s]
    between the occurrences of [sep]; never the empty list. *)
Fixpoint Split (s : string) (sep : ascii) : list string :=
  match s with
  | EmptyString => [EmptyString]
  | String a s' =>
      if Ascii.eqb a sep then EmptyString :: Split s' sep
      else match Split s' sep with
           | piece :: pieces => String a piece :: pieces
           | [] => [String a EmptyString]
           end
  end.

(** Membership of a byte in a string. *)
Fixpoint contains_byte (c : ascii) (s : string) : bool :=
  match s with
  | EmptyString => false
  | String a s' => Ascii.eqb a c || contains_byte c s'
  end.

End strings.

(** ** Go's [net/url]: a URL value with scheme, host and path, and its
    rendering [URL.String] *)

Module url.

Record URL := mkURL { Scheme : string; Host : string; Path : string }.

Inductive encoding := encodePath | encodeHost.

Definition is_alnum (c : ascii) : bool :=
  let n := nat_of_ascii c in
  ((97 <=? n) && (n <=? 122) || (65 <=? n) && (n <=? 90)
   || (48 <=? n) && (n <=? 57))%nat.

(** [shouldEscape], for the two modes [URL.String] uses here. *)
Definition shouldEscape (c : ascii) (mode : encoding) : bool :=
  if is_alnum c then false
  else if match mode with
          | encodeHost => strings.contains_byte c "!$&'()*+,;=:[]<>"
                          || Ascii.eqb c "034"
          | encodePath => false
          end
  then false
  else if strings.contains_byte c "-_.~" then false
  else if strings.contains_byte c "$&+,/:;=?@" then
    match mode with
    | encodePath => Ascii.eqb c "?"
    | encodeHost => true
    end
  else true.

Definition upperhex (n : nat) : ascii :=
  match String.get n "0123456789ABCDEF" with
  | Some c => c
  | None => "0"%char
  end.

(** [escape]: every byte that must be escaped becomes [%XX]. *)
Fixpoint escape (s : string) (mode : encoding) : string :=
  match s with
  | EmptyString => EmptyString
  | String c s' =>
      if shouldEscape c mode then
        String "%" (String (upperhex (nat_of_ascii c / 16))
                   (String (upperhex (nat_of_ascii c mod 16))
                           (escape s' mode)))
      else String c (escape s' mode)
  end.

(** [URL.EscapedPath] with no [RawPath] set. *)
Definition EscapedPath (u : URL) : string :=
  if String.eqb (Path u) "*" then "*" else escape (Path u) encodePath.

(** [URL.String] for a URL whose [Opaque], [User], [RawQuery] and
    [Fragment] are unset. *)
Definition String (u : URL) : string :=
  let scheme :=
    if String.eqb (Scheme u) "" then "" else Scheme u +:+ ":" in
  let slashes :=
    if negb (String.eqb (Scheme u) "") || negb (String.eqb (Host u) "")
    then (if negb (String.eqb (Host u) "") || negb (String.eqb (Path u) "")
          then "//" else "")
         +:+ (if String.eqb (Host u) "" then ""
              else escape (Host u) encodeHost)
    else "" in
  let path := EscapedPath u in
  let sep :=
    match path with
    | String c _ =>
        if negb (Ascii.eqb c "/") && negb (String.eqb (Host u) "")
        then "/" else ""
    | EmptyString => ""
    end in
  let dot :=
    if String.eqb (scheme +:+ slashes +:+ sep) "" then
      match strings.Split path "/" with
      | segment :: _ =>
          if strings.contains_byte ":" segment then "./" else ""
      | [] => ""
      end
    else "" in
  scheme +:+ slashes +:+ sep +:+ dot +:+ path.

End url.

(** ** config.go *)

Record TLS := mkTLS { IgnoreInsecure : bool }.

Record Endpoint := mkEndpoint {
  Host : string;
  API : Z;
  WEB : Z;
  Endpoint_TLS : option TLS
}.

Definition defaultPath : string := "/".

(** [fmt.Sprintf("%s:%d", host, port)]. *)
Definition Sprintf_host_port (host : string) (port : Z) : string :=
  host +:+ ":" +:+ pretty port.

(** The [url.URL] value [buildURI] assembles before rendering it. *)
Definition buildURI_url (e : Endpoint) (port : Z) (path : string) : url.URL :=
  let uri := url.mkURL "http" (Sprintf_host_port (Host e) port) path in
  match Endpoint_TLS e with
  | Some _ => url.mkURL "https" (url.Host uri) (url.Path uri)
  | None => uri
  end.

Definition buildURI (e : Endpoint) (port : Z) (path : string) : string :=
  url.String (buildURI_url e port path).

Record Config := mkConfig {
  ConnTimeout : Z;
  PollInterval : Z;
  Endpoints : list Endpoint;
  TLSResolver : option string
}.

(** ** The routing document of [github.com/traefik/genconf/dynamic]

    Only the fields the program reads or writes are kept. Map values and
    the fields [TLS], [LoadBalancer], [RedirectScheme] and [HTTP] are
    pointers. *)

Module dynamic.

Record RouterTLSConfig := mkRouterTLSConfig { CertResolver : string }.

Record Router := mkRouter {
  Router_Service : string;
  Router_Rule : string;
  Router_Middlewares : list string;
  Router_TLS : option RouterTLSConfig
}.

Record Server := mkServer { URL : string }.

Record ServersLoadBalancer := mkServersLoadBalancer {
  Servers : list Server
}.

Record Service := mkService {
  LoadBalancer : option ServersLoadBalancer
}.

Record RedirectScheme := mkRedirectScheme {
  Scheme : string;
  Permanent : bool
}.

Record Middleware := mkMiddleware {
  Middleware_RedirectScheme : option RedirectScheme
}.

Record HTTPConfiguration := mkHTTPConfiguration {
  Routers : gmap string (option Router);
  Services : gmap string (option Service);
  Middlewares : gmap string (option Middleware)
}.

Record Configuration := mkConfiguration {
  HTTP : option HTTPConfiguration
}.

End dynamic.

Import dynamic.

(** ** Go's [net/http] client, as far as its configuration matters *)

Module http.

Record tls_Config := mk_tls_Config { InsecureSkipVerify : bool }.

Record Transport := mkTransport { TLSClientConfig : option tls_Config }.

(** [Transport = None] is the default transport, which verifies
    certificates. *)
Record Client := mkClient { Client_Transport : option Transport }.

Definition skips_verification (cli : Client) : bool :=
  match Client_Transport cli with
  | Some t =>
      match TLSClientConfig t with
      | Some cfg => InsecureSkipVerify cfg
      | None => false
      end
  | None => false
  end.

(** What [cli.Do(req)] followed by [res.Body.Close()] can yield. *)
Inductive outcome :=
| DoFailed (cause : string)
| CloseFailed (cause : string)
| Closed.

End http.

(** ** Errors

    [Sentinel] is a package-level [errors.New] value, [Foreign] an error
    made by a library ([net/http], [encoding/json]), [Errorf] a
    [fmt.Errorf] with the other arguments of the format and the error
    wrapped by [%w]. *)

Inductive error :=
| Sentinel (msg : string)
| Foreign (msg : string)
| Errorf (format : string) (args : list string) (wrapped : error).

Global Instance error_eq_dec : EqDecision error.
Proof. solve_decision. Defined.


(** ** client.go *)

Record Client := mkClient {
  http_Client : http.Client;
  endpoint : Endpoint;
  resolver : option string
}.

Definition defaultRawPath : string := "/api/rawdata".

Definition ErrEmptyResponse : error := Sentinel "received empty response".


(** What one GET of the raw-data path can yield: the request cannot be
    built, the transport fails, or a body arrives, which the JSON decoder
    rejects or decodes into the HTTP section (a [null] body leaves the
    pointer [nil]), and whose [Close] may fail. *)
Inductive raw_response :=
| RequestInvalid (cause : string)
| TransportFailed (cause : string)
| Body (body : string)
       (decoded : string + option HTTPConfiguration)
       (close : option string).

Definition httpCall (c : Client) (r : raw_response)
  : option Configuration * option error :=
  let uri := buildURI (endpoint c) (API (endpoint c)) defaultRawPath in
  match r with
  | RequestInvalid cause =>
      (None, Some (Errorf "could not prepare request for %s: %w" [uri]
                          (Foreign cause)))
  | TransportFailed cause =>
      (None, Some (Errorf "could not make request for %s: %w" [uri]
                          (Foreign cause)))
  | Body body (inl cause) _ =>
      (None, Some (Errorf "could not decode response for %s: %s: %w"
                          [uri; body] (Foreign cause)))
  | Body _ (inr http) close =>
      (Some (mkConfiguration http), Foreign <$> close)
  end.

(** [fmt.Sprintf("%s-%s", name, host)]. *)
Definition Sprintf_name_host (name host : string) : string :=
  name +:+ "-" +:+ host.

(** The key under which a router and its service are re-homed:
    [strings.Split(key, "@")[0]] followed by [-] and the host; indexing an
    empty slice would panic. *)
Definition derived_name (c : Client) (key : string) : option string :=
  name ← strings.Split key "@" !! 0%nat;
  Some (Sprintf_name_host name (Host (endpoint c))).

(** The inner loop: one server per source server, all with the same URL. *)
Definition rewrite_servers (c : Client) (source : list Server) : list Server :=
  foldl (λ servers _,
           servers ++ [mkServer (buildURI (endpoint c) (WEB (endpoint c))
                                          defaultPath)])
        [] source.

Definition empty_HTTP : HTTPConfiguration := mkHTTPConfiguration ∅ ∅ ∅.

Definition http2https : Middleware :=
  mkMiddleware (Some (mkRedirectScheme "https" true)).

(** The body of the loop of [prepareResponse] for the entry [key], [item]
    of [res.HTTP.Routers]; [source] is [res.HTTP]. *)
Definition loop_body (c : Client) (source : HTTPConfiguration)
    (key : string) (item : option Router) (output : Configuration)
  : option Configuration :=
  if strings.HasSuffix key "@internal" then Some output
  else
    name ← derived_name c key;
    match Services source !! key with
    | None => Some output
    | Some service =>
        let out := default empty_HTTP (HTTP output) in
        router ← item;
        let routers :=
          <[name := Some (mkRouter name (Router_Rule router) [] None)]>
            (Routers out) in
        service ← service;
        balancer ← LoadBalancer service;
        let servers := rewrite_servers c (Servers balancer) in
        let services :=
          <[name := Some (mkService (Some (mkServersLoadBalancer servers)))]>
            (Services out) in
        match resolver c with
        | None =>
            Some (mkConfiguration
                    (Some (mkHTTPConfiguration routers services
                                               (Middlewares out))))
        | Some certResolver =>
            plain ← mjoin (routers !! name);
            let routers :=
              <[name := Some (mkRouter (Router_Service plain)
                                       (Router_Rule plain)
                                       (Router_Middlewares plain
                                          ++ ["http2https"])
                                       (Router_TLS plain))]> routers in
            let routers :=
              <[name +:+ "-secure" :=
                  Some (mkRouter name (Router_Rule router) []
                          (Some (mkRouterTLSConfig certResolver)))]>
                routers in
            let middlewares :=
              <["http2https" := Some http2https]> (Middlewares out) in
            Some (mkConfiguration
                    (Some (mkHTTPConfiguration routers services middlewares)))
        end
    end.

(** The loop over the entries of the map, visited in [order]. *)
Fixpoint range_Routers (c : Client) (source : HTTPConfiguration)
    (order : list (string * option Router)) (output : Configuration)
  : option Configuration :=
  match order with
  | [] => Some output
  | (key, item) :: rest =>
      output ← loop_body c source key item output;
      range_Routers c source rest output
  end.

(** [order] is an order in which [range] may visit the map [m]. *)
Definition visits {A} (m : gmap string A) (order : list (string * A)) : Prop :=
  order ≡ₚ map_to_list m.

(** [prepareResponse], visiting the routers in [order]. *)
Definition prepareResponse_in (c : Client) (res : Configuration)
    (order : list (string * option Router)) : option Configuration :=
  source ← HTTP res;
  range_Routers c source order (mkConfiguration None).

(** [prepareResponse], visiting the routers in the order of [map_to_list]. *)
Definition prepareResponse (c : Client) (res : Configuration)
  : option Configuration :=
  source ← HTTP res;
  prepareResponse_in c res (map_to_list (Routers source)).

(** What [FetchRaw] does when it returns: the value sent on [out] and the
    error returned. *)
Record fetched := mkFetched {
  sent : option Configuration;
  returned : option error
}.

Definition FetchRaw_in (c : Client) (r : raw_response)
    (order : list (string * option Router)) : option fetched :=
  match httpCall c r with
  | (_, Some err) => Some (mkFetched None (Some err))
  | (res, None) =>
      res ← res;
      source ← HTTP res;
      if bool_decide (0 < size (Routers source))%nat
         && bool_decide (0 < size (Services source))%nat
      then
        output ← prepareResponse_in c res order;
        Some (mkFetched (Some output) None)
      else
        Some (mkFetched None
                (Some (Errorf "%w (1client:%q)" [Host (endpoint c)]
                              ErrEmptyResponse)))
  end.

Definition FetchRaw (c : Client) (r : raw_response) : option fetched :=
  match r with
  | Body _ (inr (Some source)) _ =>
      FetchRaw_in c r (map_to_list (Routers source))
  | _ => FetchRaw_in c r []
  end.

(** ** The network, for the start-up probes

    [NewRequest uri] is the error of [http.NewRequestWithContext], if any;
    [Do cli uri w] is what sending the request with the client [cli] and
    closing the body yield in the state [w] of the world (a deadline that
    expires shows as [DoFailed]). *)
Class Network (W : Type) := {
  NewRequest : string → option string;
  Do : http.Client → string → W → http.outcome * W
}.

(** One probe, as the run records it. *)
Record probe := mkProbe {
  probe_uri : string;
  probe_insecure : bool;
  probe_ok : bool
}.

(** The client [PrepareClients] builds for an endpoint. *)
Definition new_http_Client (e : Endpoint) : http.Client :=
  match Endpoint_TLS e with
  | Some t =>
      if IgnoreInsecure t
      then http.mkClient
             (Some (http.mkTransport (Some (http.mk_tls_Config true))))
      else http.mkClient None
  | None => http.mkClient None
  end.

(** The loop over the two ports of one endpoint: the first error, the
    world afterwards and the probes made. *)
Fixpoint probe_ports `{Network W} (cli : http.Client) (e : Endpoint)
    (ports : list Z) (w : W) : option error * W * list probe :=
  match ports with
  | [] => (None, w, [])
  | port :: rest =>
      let uri := buildURI e port defaultPath in
      let record := mkProbe uri (http.skips_verification cli) in
      match NewRequest uri with
      | Some cause =>
          (Some (Errorf "could not prepare request(%s): %w" [uri]
                        (Foreign cause)), w, [record false])
      | None =>
          match Do cli uri w with
          | (http.DoFailed cause, w') =>
              (Some (Errorf "could not call request(%s): %w" [uri]
                            (Foreign cause)), w', [record false])
          | (http.CloseFailed cause, w') =>
              (Some (Errorf "could not close response body: %w" []
                            (Foreign cause)), w', [record false])
          | (http.Closed, w') =>
              let '(err, w'', probes) := probe_ports cli e rest w' in
              (err, w'', record true :: probes)
          end
      end
  end.

(** The loop over the endpoints, with the clients gathered so far. *)
Fixpoint range_Endpoints `{Network W} (c : Config) (endpoints : list Endpoint)
    (out : list Client) (w : W)
  : (option (list Client) * option error) * W * list probe :=
  match endpoints with
  | [] => ((Some out, None), w, [])
  | e :: rest =>
      let cli := new_http_Client e in
      match probe_ports cli e [API e; WEB e] w with
      | (Some err, w', probes) => ((None, Some err), w', probes)
      | (None, w', probes) =>
          let '(result, w'', probes') :=
            range_Endpoints c rest (out ++ [mkClient cli e (TLSResolver c)]) w'
          in (result, w'', probes ++ probes')
      end
  end.

Definition PrepareClients `{Network W} (c : Config) (w : W)
  : (option (list Client) * option error) * W * list probe :=
  range_Endpoints c (Endpoints c) [] w.

(** A network that answers the first [n] requests and then fails. *)
Global Instance fuel_Network : Network nat := {|
  NewRequest _ := None;
  Do _ _ n := match n with
              | O => (http.DoFailed "connection refused", O)
              | S n => (http.Closed, n)
              end
|}.

(** ** Vocabulary for the statements *)

(** [s] ends with [suffix]. *)
Definition ends_with (s suffix : string) : Prop := ∃ p, s = p +:+ suffix.

(** The document the fetcher hands over when [HTTP] was decoded. *)
Definition document (source : HTTPConfiguration) : Configuration :=
  mkConfiguration (Some source).

(** The HTTP section of a fragment; a [nil] section holds nothing. *)
Definition fragment (output : Configuration) : HTTPConfiguration :=
  default empty_HTTP (HTTP output).

(** A router key survives the two guards of the loop: it is not reserved
    and a service is stored under the same key. *)
Definition survives (source : HTTPConfiguration) (key : string) : bool :=
  negb (strings.HasSuffix key "@internal")
  && bool_decide (is_Some (Services source !! key)).

(** The pointers the loop dereferences for the entry are not [nil]. *)
Definition dereferenceable (source : HTTPConfiguration) (key : string)
    (item : option Router) : bool :=
  match item, Services source !! key with
  | Some _, Some (Some service) => bool_decide (is_Some (LoadBalancer service))
  | _, _ => false
  end.

(** No surviving entry makes the loop dereference [nil]. *)
Definition panic_free (source : HTTPConfiguration) : bool :=
  bool_decide
    (map_Forall (λ key item, survives source key = true →
                             dereferenceable source key item = true)
                (Routers source)).

(** The router keys and the service keys the loop writes for [key]. *)
Definition router_keys_written (c : Client) (key : string) : list string :=
  match derived_name c key with
  | Some name =>
      name :: match resolver c with
              | Some _ => [name +:+ "-secure"]
              | None => []
              end
  | None => []
  end.

Definition service_keys_written (c : Client) (key : string) : list string :=
  match derived_name c key with
  | Some name => [name]
  | None => []
  end.

(** No other surviving router key writes one of [targets]. *)
Definition others_avoid (written : string → list string)
    (source : HTTPConfiguration) (key : string) (targets : list string)
  : bool :=
  bool_decide
    (map_Forall (λ key' (_ : option Router),
                   key' = key ∨ survives source key' = false
                   ∨ Forall (λ t, t ∉ written key') targets)
                (Routers source)).

(** The entries the loop writes for a surviving router. *)
Definition plain_router (c : Client) (name : string) (router : Router)
  : Router :=
  mkRouter name (Router_Rule router)
           (match resolver c with Some _ => ["http2https"] | None => [] end)
           None.

Definition secure_router (name : string) (router : Router)
    (certResolver : string) : Router :=
  mkRouter name (Router_Rule router) []
           (Some (mkRouterTLSConfig certResolver)).

Definition rewritten_service (c : Client) (balancer : ServersLoadBalancer)
  : Service :=
  mkService (Some (mkServersLoadBalancer
                     (rewrite_servers c (Servers balancer)))).

Definition emit (c : Client) (name : string) (router : Router)
    (balancer : ServersLoadBalancer) (out : HTTPConfiguration)
  : HTTPConfiguration :=
  let routers := <[name := Some (plain_router c name router)]> (Routers out) in
  let services :=
    <[name := Some (rewritten_service c balancer)]> (Services out) in
  match resolver c with
  | None => mkHTTPConfiguration routers services (Middlewares out)
  | Some certResolver =>
      mkHTTPConfiguration
        (<[name +:+ "-secure" :=
             Some (secure_router name router certResolver)]> routers)
        services
        (<["http2https" := Some http2https]> (Middlewares out))
  end.

(** The key suffixes an endpoint stamps on what it emits. *)
Definition stamps (c : Client) : list string :=
  ("-" +:+ Host (endpoint c))
  :: match resolver c with
     | Some _ => ["-" +:+ Host (endpoint c) +:+ "-secure"]
     | None => []
     end.

(** Neither client stamps a suffix that ends with a suffix of the other. *)
Definition separable (c1 c2 : Client) : bool :=
  forallb (λ s1, forallb (λ s2, negb (strings.HasSuffix s1 s2)
                                && negb (strings.HasSuffix s2 s1))
                         (stamps c2))
          (stamps c1).

(** All the keys of a fragment. *)
Definition keys (output : Configuration) : gset string :=
  dom (Routers (fragment output)) ∪ dom (Services (fragment output)).

(** A rendered path behind an authority: [/] is put before a path that
    does not start with it. *)
Definition rooted (path : string) : string :=
  match path with
  | EmptyString => ""
  | String c _ => if Ascii.eqb c "/" then path else "/" +:+ path
  end.

(** No byte of [s] is escaped in a host. *)
Fixpoint plain_host (s : string) : bool :=
  match s with
  | EmptyString => true
  | String c s' => negb (url.shouldEscape c url.encodeHost) && plain_host s'
  end.

(** The entry [key], [item] survives the guards with all its pointers set:
    it is re-homed under [name], with the rule of [router] and as many
    servers as [balancer]. *)
Definition survivor (c : Client) (source : HTTPConfiguration)
    (key : string) (item : option Router)
    (name : string) (router : Router) (balancer : ServersLoadBalancer)
  : Prop :=
  strings.HasSuffix key "@internal" = false
  ∧ derived_name c key = Some name
  ∧ item = Some router
  ∧ ∃ service, Services source !! key = Some (Some service)
               ∧ LoadBalancer service = Some balancer.

(** [base] is the segment of [key] before its first [sep] (all of [key]
    when there is none). *)
Definition before_first (sep : ascii) (key base : string) : Prop :=
  strings.contains_byte sep base = false
  ∧ ∃ rest, key = base +:+ rest
            ∧ (rest = "" ∨ ∃ rest', rest = String sep rest').

(** The fragment holds the plain router of the entry [key]: under the
    segment of [key] before the first [@], [-] and the host, a router with
    the rule of the source router, that name as its service and no TLS. *)
Definition plain_router_emitted (c : Client) (source : HTTPConfiguration)
    (order : list (string * option Router)) (key : string) : Prop :=
  ∃ output base router emitted,
    prepareResponse_in c (document source) order = Some output
    ∧ before_first "@" key base
    ∧ Routers source !! key = Some (Some router)
    ∧ Routers (fragment output) !! (base +:+ "-" +:+ Host (endpoint c))
      = Some (Some emitted)
    ∧ Router_Rule emitted = Router_Rule router
    ∧ Router_Service emitted = base +:+ "-" +:+ Host (endpoint c)
    ∧ Router_TLS emitted = None.

(** ** Sample endpoints and documents *)

Definition sample_endpoint : Endpoint := mkEndpoint "a.example" 8080 8081 None.

Definition sample_client : Client :=
  mkClient (http.mkClient None) sample_endpoint None.

Definition sample_tls_client : Client :=
  mkClient (http.mkClient None) sample_endpoint (Some "myresolver").

Definition backends (urls : list string) : option Service :=
  Some (mkService (Some (mkServersLoadBalancer (mkServer <$> urls)))).

Definition rule (r : string) : option Router := Some (mkRouter "" r [] None).

(** One router and its service, with two servers. *)
Definition web_document : HTTPConfiguration :=
  mkHTTPConfiguration
    {[ "web@docker" := rule "Host(`a`)" ]}
    {[ "web@docker" := backends ["http://10.0.0.1:80"; "http://10.0.0.2:80"] ]}
    ∅.

(** The same router name under two providers. *)
Definition clash_document : HTTPConfiguration :=
  mkHTTPConfiguration
    {[ "web@docker" := rule "Host(`a`)"; "web@file" := rule "Host(`b`)" ]}
    {[ "web@docker" := backends ["http://10.0.0.1:80"];
       "web@file" := backends ["http://10.0.0.2:80"; "http://10.0.0.3:80"] ]}
    ∅.

Definition docker_first : list (string * option Router) :=
  [("web@docker", rule "Host(`a`)"); ("web@file", rule "Host(`b`)")].

Definition file_first : list (string * option Router) :=
  [("web@file", rule "Host(`b`)"); ("web@docker", rule "Host(`a`)")].

(** The fragment holds the service of the entry [key]: under the derived
    name, a load balancer with as many servers as the source service, each
    with the URI of the endpoint's web port and root path. *)
Definition service_rewritten (c : Client) (source : HTTPConfiguration)
    (order : list (string * option Router)) (key : string) : Prop :=
  ∃ output name service balancer servers,
    prepareResponse_in c (document source) order = Some output
    ∧ derived_name c key = Some name
    ∧ Services source !! key = Some (Some service)
    ∧ LoadBalancer service = Some balancer
    ∧ Services (fragment output) !! name
      = Some (Some (mkService (Some (mkServersLoadBalancer servers))))
    ∧ length servers = length (Servers balancer)
    ∧ Forall (λ server,
                URL server
                = buildURI (endpoint c) (WEB (endpoint c)) defaultPath)
             servers.




(** An endpoint whose host ends with [-secure]. *)
Definition vault_endpoint : Endpoint :=
  mkEndpoint "vault-secure" 8080 8081 None.


Definition vault_tls_client : Client :=
  mkClient (http.mkClient None) vault_endpoint (Some "myresolver").

(** Every router key and service key of the fragment ends with the host. *)
Definition keys_end_with_host (c : Client) (source : HTTPConfiguration)
    (order : list (string * option Router)) : Prop :=
  ∃ output,
    prepareResponse_in c (document source) order = Some output
    ∧ ∀ k, k ∈ keys output → ends_with k (Host (endpoint c)).

(** The fragments of two endpoints share no key. *)
Definition fragments_disjoint
    (c1 : Client) (source1 : HTTPConfiguration)
    (order1 : list (string * option Router))
    (c2 : Client) (source2 : HTTPConfiguration)
    (order2 : list (string * option Router)) : Prop :=
  ∃ output1 output2,
    prepareResponse_in c1 (document source1) order1 = Some output1
    ∧ prepareResponse_in c2 (document source2) order2 = Some output2
    ∧ keys output1 ## keys output2.

(** Two endpoints with distinct hosts, one a tail of the other. *)
Definition prod_client : Client :=
  mkClient (http.mkClient None) (mkEndpoint "prod" 8080 8081 None) None.

Definition eu_prod_client : Client :=
  mkClient (http.mkClient None) (mkEndpoint "eu-prod" 8080 8081 None) None.

Definition web_eu_document : HTTPConfiguration :=
  mkHTTPConfiguration
    {[ "web-eu@docker" := rule "Host(`a`)" ]}
    {[ "web-eu@docker" := backends ["http://10.0.0.1:80"] ]}
    ∅.

(** Every router of the fragment with a TLS configuration is keyed by its
    service reference followed by [-secure]; that reference is the derived
    name of a surviving key, and the fragment has a service under it. *)
Definition secure_routers_share_service (c : Client)
    (source : HTTPConfiguration) (order : list (string * option Router))
  : Prop :=
  ∃ output,
    prepareResponse_in c (document source) order = Some output
    ∧ ∀ k router,
        Routers (fragment output) !! k = Some (Some router) →
        is_Some (Router_TLS router) →
        k = Router_Service router +:+ "-secure"
        ∧ Router_TLS router = mkRouterTLSConfig <$> resolver c
        ∧ is_Some (Services (fragment output) !! Router_Service router)
        ∧ ∃ key, survives source key = true
                 ∧ is_Some (Routers source !! key)
                 ∧ derived_name c key = Some (Router_Service router).

(** The service keys of the fragment are the derived names of the
    surviving keys. *)
Definition services_under_derived_names (c : Client)
    (source : HTTPConfiguration) (order : list (string * option Router))
  : Prop :=
  ∃ output,
    prepareResponse_in c (document source) order = Some output
    ∧ ∀ k, is_Some (Services (fragment output) !! k) ↔
           ∃ key, survives source key = true
                  ∧ is_Some (Routers source !! key)
                  ∧ derived_name c key = Some k.

(** No service key of the fragment ends with [-secure]. *)
Definition no_secure_service_key (c : Client) (source : HTTPConfiguration)
    (order : list (string * option Router)) : Prop :=
  ∃ output,
    prepareResponse_in c (document source) order = Some output
    ∧ ∀ k, is_Some (Services (fragment output) !! k) →
           strings.HasSuffix k "-secure" = false.

(** An entry whose key does not end with the reserved suffix. *)
Definition public (entry : string * option Router) : Prop :=
  strings.HasSuffix entry.1 "@internal" = false.

(** The document without its reserved routers. *)
Definition without_internal (source : HTTPConfiguration)
  : HTTPConfiguration :=
  mkHTTPConfiguration (filter public (Routers source)) (Services source)
                      (Middlewares source).

(** An entry with a service under its key. *)
Definition served (source : HTTPConfiguration)
    (entry : string * option Router) : Prop :=
  is_Some (Services source !! entry.1).

(** No router of the document has a service under its key. *)
Definition all_dangling (source : HTTPConfiguration) : bool :=
  bool_decide (map_Forall (λ key (_ : option Router),
                             Services source !! key = None)
                          (Routers source)).

(** [web_document] with the routers and services of the proxy itself; the
    reserved services have no load balancer. *)
Definition internal_document : HTTPConfiguration :=
  mkHTTPConfiguration
    {[ "api@internal" := rule "PathPrefix(`/api`)";
       "dashboard@internal" := None;
       "web@docker" := rule "Host(`a`)" ]}
    {[ "api@internal" := Some (mkService None);
       "dashboard@internal" := None;
       "web@docker" :=
         backends ["http://10.0.0.1:80"; "http://10.0.0.2:80"] ]}
    ∅.

(** A router whose service is stored under another key. *)
Definition dangling_document : HTTPConfiguration :=
  mkHTTPConfiguration
    {[ "router@x" := rule "Host(`a`)" ]}
    {[ "service@x" := backends ["http://10.0.0.1:80"] ]}
    ∅.

(** The error of [FetchRaw] for a document without routers or without
    services. *)
Definition empty_response_error (c : Client) : error :=
  Errorf "%w (1client:%q)" [Host (endpoint c)] ErrEmptyResponse.

(** A document with one reserved router and no service. *)
Definition orphan_document : HTTPConfiguration :=
  mkHTTPConfiguration {[ "internal-api@internal" := rule "Path(`/`)" ]} ∅ ∅.





Definition insecure_endpoint : Endpoint :=
  mkEndpoint "b.example" 9090 9091 (Some (mkTLS true)).

Definition sample_config : Config :=
  mkConfig 5000000000 30000000000 [sample_endpoint; insecure_endpoint]
           (Some "myresolver").

(** ** config.go: validation

    An error of [Validate] is an [errors.New] message or a [fmt.Errorf]
    format with its arguments, an [int] ([%d]) or a [time.Duration]
    ([%s]); none wraps another error. *)

Inductive fmt_arg :=
| arg_int (n : Z)
| arg_Duration (d : Z).

Inductive config_error :=
| errors_New (msg : string)
| fmt_Errorf (format : string) (args : list fmt_arg).

(** The loop of [Validate] over the endpoints from index [i] on. *)
Fixpoint Validate_Endpoints (i : Z) (endpoints : list Endpoint)
  : option config_error :=
  match endpoints with
  | [] => None
  | e :: rest =>
      if String.eqb (Host e) "" then
        Some (fmt_Errorf "empty #%d endpoint host" [arg_int i])
      else if API e <=? 0 then
        Some (fmt_Errorf "empty #%d endpoint apiPort: %d"
                         [arg_int i; arg_int (API e)])
      else if WEB e <=? 0 then
        Some (fmt_Errorf "empty #%d endpoint webPort: %d"
                         [arg_int i; arg_int (WEB e)])
      else Validate_Endpoints (i + 1) rest
  end.

(** [Validate]; the receiver may be [nil]; [None] is the [nil] error. *)
Definition Validate (c : option Config) : option config_error :=
  match c with
  | None => Some (errors_New "empty config")
  | Some c =>
      if ConnTimeout c <=? 0 then
        Some (fmt_Errorf "wrong connection timeout: %s"
                         [arg_Duration (ConnTimeout c)])
      else if PollInterval c <=? 0 then
        Some (fmt_Errorf "wrong poll interval: %s"
                         [arg_Duration (PollInterval c)])
      else if bool_decide (length (Endpoints c) = 0%nat) then
        Some (errors_New "empty endpoints")
      else Validate_Endpoints 0 (Endpoints c)
  end.

(** An endpoint that passes the three checks of the loop. *)
Definition valid_endpoint (e : Endpoint) : Prop :=
  Host e ≠ "" ∧ 0 < API e ∧ 0 < WEB e.

(** The error of the loop for the endpoint [e] at index [i]. *)
Definition endpoint_error (i : Z) (e : Endpoint) : config_error :=
  if String.eqb (Host e) "" then
    fmt_Errorf "empty #%d endpoint host" [arg_int i]
  else if API e <=? 0 then
    fmt_Errorf "empty #%d endpoint apiPort: %d" [arg_int i; arg_int (API e)]
  else
    fmt_Errorf "empty #%d endpoint webPort: %d" [arg_int i; arg_int (WEB e)].

Definition broken_config : Config :=
  mkConfig 5000000000 30000000000
           [sample_endpoint; mkEndpoint "c.example" 0 (-1) None;
            mkEndpoint "" 1 1 None]
           None.

(** No two surviving router keys write a common router key. *)
Definition collision_free (c : Client) (source : HTTPConfiguration) : bool :=
  bool_decide
    (map_Forall (λ key (_ : option Router),
                   survives source key = true →
                   others_avoid (router_keys_written c) source key
                                (router_keys_written c key) = true)
                (Routers source)).

(** Two routers with different names, and a reserved one. *)
Definition two_routes_document : HTTPConfiguration :=
  mkHTTPConfiguration
    {[ "web@docker" := rule "Host(`a`)";
       "api@file" := rule "Host(`b`)";
       "dashboard@internal" := None ]}
    {[ "web@docker" := backends ["http://10.0.0.1:80"];
       "api@file" := backends ["http://10.0.0.2:80"; "http://10.0.0.3:80"] ]}
    ∅.

Definition web_first : list (string * option Router) :=
  [("web@docker", rule "Host(`a`)"); ("dashboard@internal", None);
   ("api@file", rule "Host(`b`)")].

Definition api_first : list (string * option Router) :=
  [("api@file", rule "Host(`b`)"); ("web@docker", rule "Host(`a`)");
   ("dashboard@internal", None)].

(** What the transformer reads of a router and of a service: the rule,
    and the number of servers ([None] for a [nil] service, [Some None]
    for a service without a load balancer). *)
Definition rule_of (item : option Router) : option string :=
  Router_Rule <$> item.

Definition server_count (service : option Service) : option (option nat) :=
  (λ s, (λ balancer, length (Servers balancer)) <$> LoadBalancer s)
    <$> service.

(** [web_document] with other backends, and a router that names a
    service, middlewares and a TLS configuration. *)
Definition web_document_variant : HTTPConfiguration :=
  mkHTTPConfiguration
    {[ "web@docker" :=
         Some (mkRouter "web-svc" "Host(`a`)" ["auth@file"]
                        (Some (mkRouterTLSConfig "le"))) ]}
    {[ "web@docker" :=
         backends ["https://192.168.0.7:8443"; "https://192.168.0.8:8443"] ]}
    {[ "auth@file" := None ]}.

(** The number of visited entries that survive the two guards. *)
Definition survivors (source : HTTPConfiguration)
    (order : list (string * option Router)) : nat :=
  length (filter (λ entry, survives source entry.1 = true) order).

(** The number of router keys one iteration writes. *)
Definition routers_per_survivor (c : Client) : nat :=
  match resolver c with Some _ => 2%nat | None => 1%nat end.

(** * Properties *)

(** ** Strings *)

Section string_facts.

Implicit Types s p q suffix : string.

Lemma append_nil_l s : "" +:+ s = s.
Proof. reflexivity. Qed.

Lemma append_cons a s p : String a s +:+ p = String a (s +:+ p).
Proof. reflexivity. Qed.

Lemma append_nil_r s : s +:+ "" = s.
Proof.
  induction s as [|a s IH]; [done|]. by rewrite append_cons, IH.
Qed.

Lemma append_assoc s p q : (s +:+ p) +:+ q = s +:+ p +:+ q.
Proof.
  induction s as [|a s IH]; [done|]. by rewrite !append_cons, IH.
Qed.

Lemma length_append s p :
  String.length (s +:+ p) = (String.length s + String.length p)%nat.
Proof.
  induction s as [|a s IH]; [done|]. rewrite append_cons. simpl.
  by rewrite IH.
Qed.

Lemma substring_all s : String.substring 0 (String.length s) s = s.
Proof. induction s as [|a s IH]; simpl; [done|]. by rewrite IH. Qed.

Lemma substring_skip p s n :
  String.substring (String.length p) n (p +:+ s) = String.substring 0 n s.
Proof.
  induction p as [|a p IH]; [done|]. rewrite append_cons. simpl. apply IH.
Qed.

Lemma substring_split s n :
  (n ≤ String.length s)%nat →
  s = String.substring 0 n s
      +:+ String.substring n (String.length s - n) s.
Proof.
  revert n. induction s as [|a s IH]; intros [|n] Hn; simpl in *;
    try done; try lia.
  - by rewrite append_nil_l, substring_all.
  - rewrite append_cons. f_equal. apply IH. lia.
Qed.

(** [strings.HasSuffix] decides [ends_with]. *)
Lemma HasSuffix_true s suffix :
  strings.HasSuffix s suffix = true ↔ ends_with s suffix.
Proof.
  unfold strings.HasSuffix, ends_with. split.
  - intros [Hlen Heq]%andb_true_iff.
    apply Nat.leb_le in Hlen. apply String.eqb_eq in Heq.
    exists (String.substring 0 (String.length s - String.length suffix) s).
    pose proof (substring_split s
                  (String.length s - String.length suffix)) as Hcut.
    replace (String.length s - (String.length s - String.length suffix))%nat
      with (String.length suffix) in Hcut by lia.
    rewrite Heq in Hcut. apply Hcut. lia.
  - intros [p ->]. apply andb_true_iff. split.
    + apply Nat.leb_le. rewrite length_append. lia.
    + apply String.eqb_eq. rewrite length_append.
      replace (String.length p + String.length suffix
               - String.length suffix)%nat
        with (String.length p) by lia.
      rewrite substring_skip. apply substring_all.
Qed.

Lemma HasSuffix_false s suffix :
  strings.HasSuffix s suffix = false ↔ ¬ ends_with s suffix.
Proof.
  rewrite <- HasSuffix_true.
  destruct (strings.HasSuffix s suffix); naive_solver.
Qed.

(** Two ways of cutting one string: one tail ends with the other. *)
Lemma append_eq_ends_with p s q suffix :
  p +:+ s = q +:+ suffix → ends_with s suffix ∨ ends_with suffix s.
Proof.
  revert q. induction p as [|a p IH]; intros q Heq.
  - left. exists q. exact Heq.
  - destruct q as [|b q].
    + right. exists (String a p). symmetry. exact Heq.
    + rewrite !append_cons in Heq. injection Heq as _ Heq. by apply IH in Heq.
Qed.

Lemma append_inv_r s p q : s +:+ q = p +:+ q → s = p.
Proof.
  revert p. induction s as [|a s IH]; intros [|b p] Heq.
  - done.
  - apply (f_equal String.length) in Heq.
    rewrite append_nil_l, append_cons in Heq.
    simpl in Heq. rewrite length_append in Heq. lia.
  - apply (f_equal String.length) in Heq.
    rewrite append_nil_l, append_cons in Heq.
    simpl in Heq. rewrite length_append in Heq. lia.
  - rewrite !append_cons in Heq. injection Heq as -> Heq. f_equal.
    by apply IH.
Qed.

Lemma contains_byte_append c s p :
  strings.contains_byte c (s +:+ p)
  = strings.contains_byte c s || strings.contains_byte c p.
Proof.
  induction s as [|a s IH]; [done|]. rewrite append_cons. simpl.
  rewrite IH. by rewrite orb_assoc.
Qed.

(** [strings.Split] never returns the empty list, and its first piece is
    the part of [s] before the first [sep]. *)
Lemma Split_first s sep :
  ∃ piece rest,
    strings.Split s sep !! 0%nat = Some piece
    ∧ s = piece +:+ rest
    ∧ strings.contains_byte sep piece = false
    ∧ (rest = "" ∨ ∃ rest', rest = String sep rest').
Proof.
  induction s as [|a s (piece & rest & Hhd & Hs & Hno & Hrest)]; simpl.
  - exists "", "". by split_and!; [..|left].
  - destruct (Ascii.eqb a sep) eqn:Ha.
    + apply Ascii.eqb_eq in Ha as ->.
      exists "", (String sep s). split_and!; [done..|right; by eexists].
    + destruct (strings.Split s sep) as [|x xs]; [done|].
      simpl in Hhd. injection Hhd as ->.
      exists (String a piece), rest. simpl. rewrite Ha, Hno.
      split_and!; try done. rewrite append_cons. by rewrite <- Hs.
Qed.

End string_facts.

(** ** URI construction *)

Example buildURI_plain :
  buildURI (mkEndpoint "a.example" 8080 8081 None) 8081 defaultPath
  = "http://a.example:8081/".
Proof. vm_compute. reflexivity. Qed.

Example buildURI_tls :
  buildURI (mkEndpoint "a.example" 8080 8081 (Some (mkTLS false))) 8080
           "/api/rawdata"
  = "https://a.example:8080/api/rawdata".
Proof. vm_compute. reflexivity. Qed.

Example buildURI_escapes :
  buildURI (mkEndpoint "a b" 1 (-2) None) (-2) "x y?"
  = "http://a%20b:-2/x%20y%3F".
Proof. vm_compute. reflexivity. Qed.


Lemma escape_plain_host s :
  plain_host s = true → url.escape s url.encodeHost = s.
Proof.
  induction s as [|a s IH]; [done|]. simpl.
  intros [Ha Hs]%andb_true_iff. apply negb_true_iff in Ha.
  by rewrite Ha, IH.
Qed.

Lemma plain_host_append s p :
  plain_host (s +:+ p) = plain_host s && plain_host p.
Proof.
  induction s as [|a s IH]; [done|]. rewrite append_cons. simpl.
  by rewrite IH, andb_assoc.
Qed.

Lemma plain_host_pretty_N_char x :
  url.shouldEscape (pretty_N_char x) url.encodeHost = false.
Proof.
  unfold pretty_N_char. by repeat case_match.
Qed.

Lemma plain_host_pretty_N_go x s :
  plain_host s = true → plain_host (pretty_N_go x s) = true.
Proof.
  revert s. induction (N.lt_wf_0 x) as [x _ IH]; intros s Hs.
  destruct (decide (0 < x)%N) as [Hx|Hx].
  - rewrite pretty_N_go_step by done. apply IH.
    + by apply N.div_lt.
    + simpl. by rewrite plain_host_pretty_N_char.
  - by replace x with 0%N by lia.
Qed.

Lemma plain_host_pretty_Z (port : Z) : plain_host (pretty port) = true.
Proof.
  assert (∀ p : positive, plain_host (pretty p) = true) as Hpos.
  { intros p. unfold pretty, pretty_positive, pretty, pretty_N.
    case_decide; [done|]. by apply plain_host_pretty_N_go. }
  destruct port as [|p|p]; [done|apply Hpos|].
  unfold pretty, pretty_Z. rewrite plain_host_append. by rewrite Hpos.
Qed.

(** The rendering of a URL that has a scheme and a host. *)
Lemma URL_String_authority scheme host path :
  scheme ≠ "" → host ≠ "" →
  url.String (url.mkURL scheme host path)
  = scheme +:+ "://" +:+ url.escape host url.encodeHost
    +:+ rooted (url.EscapedPath (url.mkURL scheme host path)).
Proof.
  intros Hscheme%String.eqb_neq Hhost%String.eqb_neq.
  unfold url.String. simpl url.Scheme. simpl url.Host. simpl url.Path.
  rewrite Hscheme, Hhost. simpl negb. simpl orb.
  assert ((scheme +:+ ":") +:+ ("//" +:+ url.escape host url.encodeHost)
          = scheme +:+ "://" +:+ url.escape host url.encodeHost) as Hfront.
  { by rewrite append_assoc. }
  assert (∀ t, String.eqb ((scheme +:+ ":") +:+ t) "" = false) as Hne.
  { intros t. apply String.eqb_neq. intros Heq.
    apply (f_equal String.length) in Heq.
    rewrite !length_append in Heq. simpl in Heq. lia. }
  rewrite Hne. rewrite append_nil_l.
  generalize (url.EscapedPath (url.mkURL scheme host path)). intros p.
  rewrite <- !append_assoc. rewrite append_assoc with (s := scheme +:+ ":").
  rewrite Hfront. rewrite !append_assoc. do 3 f_equal.
  destruct p as [|a p]; [done|]. simpl.
  by destruct (Ascii.eqb a "/").
Qed.


(** ** One iteration of the loop of [prepareResponse] *)

Section loop_body_facts.

Context (c : Client) (source : HTTPConfiguration).

Lemma derived_name_Some key :
  ∃ base rest,
    derived_name c key = Some (base +:+ "-" +:+ Host (endpoint c))
    ∧ strings.Split key "@" !! 0%nat = Some base
    ∧ key = base +:+ rest
    ∧ strings.contains_byte "@" base = false
    ∧ (rest = "" ∨ ∃ rest', rest = String "@" rest').
Proof.
  destruct (Split_first key "@") as (base & rest & Hhd & ? & ? & ?).
  exists base, rest. unfold derived_name. rewrite Hhd. by split_and!.
Qed.

Lemma derived_name_stamp key name :
  derived_name c key = Some name →
  ∃ base, name = base +:+ "-" +:+ Host (endpoint c).
Proof.
  destruct (derived_name_Some key) as (base & rest & Hname & _).
  rewrite Hname. intros [= <-]. by exists base.
Qed.

(** A reserved key leaves the output as it is. *)
Lemma loop_body_internal key item output :
  strings.HasSuffix key "@internal" = true →
  loop_body c source key item output = Some output.
Proof. intros Hint. unfold loop_body. by rewrite Hint. Qed.

(** So does a key without a service. *)
Lemma loop_body_dangling key item output :
  Services source !! key = None →
  loop_body c source key item output = Some output.
Proof.
  intros Hnone. unfold loop_body.
  destruct (strings.HasSuffix key "@internal"); [done|].
  destruct (derived_name_Some key) as (base & rest & -> & _). simpl.
  by rewrite Hnone.
Qed.

Lemma survives_true key :
  survives source key = true ↔
  strings.HasSuffix key "@internal" = false
  ∧ is_Some (Services source !! key).
Proof.
  unfold survives. rewrite andb_true_iff, negb_true_iff.
  by rewrite bool_decide_eq_true.
Qed.

Lemma survives_false key :
  survives source key = false ↔
  strings.HasSuffix key "@internal" = true ∨ Services source !! key = None.
Proof.
  unfold survives. rewrite andb_false_iff, negb_false_iff.
  rewrite bool_decide_eq_false. by rewrite <- eq_None_not_Some.
Qed.

Lemma loop_body_skip key item output :
  survives source key = false →
  loop_body c source key item output = Some output.
Proof.
  intros [?|?]%survives_false;
    eauto using loop_body_internal, loop_body_dangling.
Qed.

Lemma dereferenceable_true key item :
  dereferenceable source key item = true ↔
  ∃ router service balancer,
    item = Some router
    ∧ Services source !! key = Some (Some service)
    ∧ LoadBalancer service = Some balancer.
Proof.
  unfold dereferenceable. split.
  - destruct item as [router|]; [|done].
    destruct (Services source !! key) as [[service|]|]; try done.
    intros [balancer ?]%bool_decide_eq_true. by exists router, service, balancer.
  - intros (router & service & balancer & -> & -> & Hlb).
    apply bool_decide_eq_true. by rewrite Hlb.
Qed.

(** A surviving entry whose pointers are set writes [emit]. *)
Lemma loop_body_survivor key name router service balancer output :
  strings.HasSuffix key "@internal" = false →
  derived_name c key = Some name →
  Services source !! key = Some (Some service) →
  LoadBalancer service = Some balancer →
  loop_body c source key (Some router) output
  = Some (document (emit c name router balancer (fragment output))).
Proof.
  intros Hint Hname Hsvc Hlb. unfold loop_body, emit, document, fragment.
  rewrite Hint, Hname. simpl. rewrite Hsvc. simpl. rewrite Hlb. simpl.
  unfold plain_router, secure_router, rewritten_service.
  destruct (resolver c) as [certResolver|]; [|done].
  rewrite lookup_insert_eq. simpl. by rewrite insert_insert_eq.
Qed.

(** A surviving entry with a [nil] pointer makes the loop panic. *)
Lemma loop_body_panics key item output :
  survives source key = true →
  dereferenceable source key item = false →
  loop_body c source key item output = None.
Proof.
  intros [Hint [service Hsvc]]%survives_true Hnil.
  unfold loop_body, dereferenceable in *. rewrite Hint, Hsvc in *.
  destruct (derived_name_Some key) as (base & rest & -> & _). simpl.
  destruct item as [router|]; [|done]. simpl.
  destruct service as [service|]; [|done]. simpl.
  destruct (LoadBalancer service); [|done].
  by rewrite bool_decide_eq_false in Hnil; destruct Hnil.
Qed.

End loop_body_facts.

(** ** The loop of [prepareResponse] *)

Section range_facts.

Context (c : Client) (source : HTTPConfiguration).

Implicit Types order done todo : list (string * option Router).
Implicit Types output init : Configuration.
Implicit Types h : HTTPConfiguration.

Lemma fragment_document h : fragment (document h) = h.
Proof. done. Qed.

Lemma survivor_survives key item name router balancer :
  survivor c source key item name router balancer →
  survives source key = true.
Proof.
  intros (Hint & _ & _ & service & Hsvc & _). apply survives_true.
  by rewrite Hsvc.
Qed.

(** What one iteration that returns has done. *)
Lemma loop_body_Some key item output output' :
  loop_body c source key item output = Some output' →
  (survives source key = false ∧ output' = output)
  ∨ ∃ name router balancer,
      survivor c source key item name router balancer
      ∧ output' = document (emit c name router balancer (fragment output)).
Proof.
  intros Hbody. destruct (survives source key) eqn:Hkey.
  - right. destruct (dereferenceable source key item) eqn:Hptr.
    + apply dereferenceable_true in Hptr
        as (router & service & balancer & -> & Hsvc & Hlb).
      apply survives_true in Hkey as [Hint _].
      destruct (derived_name_Some c key) as (base & rest & Hname & _).
      rewrite (loop_body_survivor _ _ _ _ _ _ _ _ Hint Hname Hsvc Hlb)
        in Hbody.
      injection Hbody as <-. eexists _, router, balancer.
      split; [|done]. split_and!; eauto.
    + by rewrite loop_body_panics in Hbody.
  - left. rewrite loop_body_skip in Hbody by done. by injection Hbody.
Qed.

Lemma range_Routers_app order1 order2 init :
  range_Routers c source (order1 ++ order2) init
  = range_Routers c source order1 init ≫= range_Routers c source order2.
Proof.
  revert init. induction order1 as [|[key item] order1 IH]; intros init.
  - done.
  - simpl. destruct (loop_body c source key item init); simpl; [apply IH|done].
Qed.

(** The loop returns when no surviving entry holds a [nil] pointer. *)
Lemma range_Routers_returns order init :
  Forall (λ entry, survives source entry.1 = true →
                   dereferenceable source entry.1 entry.2 = true) order →
  is_Some (range_Routers c source order init).
Proof.
  intros Hptr. revert init.
  induction Hptr as [|[key item] order Hentry _ IH]; intros init; simpl in *.
  - done.
  - destruct (survives source key) eqn:Hkey.
    + apply dereferenceable_true in Hentry
        as (router & service & balancer & -> & Hsvc & Hlb); [|done].
      apply survives_true in Hkey as [Hint _].
      destruct (derived_name_Some c key) as (base & rest & Hname & _).
      rewrite (loop_body_survivor _ _ _ _ _ _ _ _ Hint Hname Hsvc Hlb).
      apply IH.
    + rewrite loop_body_skip by done. apply IH.
Qed.

(** It panics when one does. *)
Lemma range_Routers_panics order init key item :
  (key, item) ∈ order →
  survives source key = true →
  dereferenceable source key item = false →
  range_Routers c source order init = None.
Proof.
  intros Hin Hkey Hnil. revert init.
  induction order as [|[key' item'] order IH]; intros init.
  - by apply elem_of_nil in Hin.
  - simpl. apply elem_of_cons in Hin as [[= <- <-]|Hin].
    + by rewrite loop_body_panics.
    + destruct (loop_body c source key' item' init); simpl; [by apply IH|done].
Qed.

(** Entries that do not survive can be left out of the visit. *)
Lemma range_Routers_filter (P : string * option Router → Prop)
    `{∀ entry, Decision (P entry)} order init :
  (∀ entry, entry ∈ order → ¬ P entry → survives source entry.1 = false) →
  range_Routers c source order init
  = range_Routers c source (filter P order) init.
Proof.
  revert init. induction order as [|[key item] order IH]; intros init Hskip.
  - done.
  - rewrite filter_cons. destruct (decide (P (key, item))) as [HP|HP]; simpl.
    + destruct (loop_body c source key item init); simpl; [|done].
      apply IH. intros entry Hin. apply Hskip. by right.
    + rewrite loop_body_skip by (apply (Hskip (key, item)); [left|done]).
      apply IH. intros entry Hin. apply Hskip. by right.
Qed.

(** The invariant rule of the loop: a property of the entries visited so
    far and the fragment built so far that every iteration keeps holds of
    the result. *)
Lemma range_Routers_invariant
    (P : list (string * option Router) → HTTPConfiguration → Prop) order :
  (∀ done key item h,
     (key, item) ∈ order → survives source key = false →
     P done h → P (done ++ [(key, item)]) h) →
  (∀ done key item name router balancer h,
     (key, item) ∈ order → survivor c source key item name router balancer →
     P done h → P (done ++ [(key, item)]) (emit c name router balancer h)) →
  ∀ init output,
    P [] (fragment init) →
    range_Routers c source order init = Some output →
    P order (fragment output).
Proof.
  intros Hskip Hemit.
  assert (∀ todo done init output,
            (∀ entry, entry ∈ todo → entry ∈ order) →
            P done (fragment init) →
            range_Routers c source todo init = Some output →
            P (done ++ todo) (fragment output)) as Hgen.
  { induction todo as [|[key item] todo IH]; intros done init output Hsub HP.
    - simpl. intros [= <-]. by rewrite app_nil_r.
    - simpl. destruct (loop_body c source key item init) as [output'|] eqn:Hb;
        [|done].
      simpl. intros Hrange.
      replace (done ++ (key, item) :: todo)
        with ((done ++ [(key, item)]) ++ todo) by by rewrite <- app_assoc.
      apply (IH _ output'); [intros; apply Hsub; by right| |done].
      apply loop_body_Some in Hb
        as [[Hkey ->]|(name & router & balancer & Hsurv & ->)].
      + apply Hskip; [apply Hsub; by left|done..].
      + rewrite fragment_document.
        apply Hemit; [apply Hsub; by left|done..]. }
  intros init output. by apply (Hgen order []).
Qed.

End range_facts.

(** ** What [emit] writes *)

Section emit_facts.

Context (c : Client).

Implicit Types h : HTTPConfiguration.

Lemma secure_name_ne name : name ≠ name +:+ "-secure".
Proof.
  intros Heq. apply (f_equal String.length) in Heq.
  rewrite length_append in Heq. simpl in Heq. lia.
Qed.

Lemma secure_name_inj name name' :
  name +:+ "-secure" = name' +:+ "-secure" → name = name'.
Proof. apply append_inv_r. Qed.

Lemma emit_Routers_plain name router balancer h :
  Routers (emit c name router balancer h) !! name
  = Some (Some (plain_router c name router)).
Proof.
  unfold emit. destruct (resolver c); simpl.
  - rewrite lookup_insert_ne by (symmetry; apply secure_name_ne).
    apply lookup_insert_eq.
  - apply lookup_insert_eq.
Qed.

Lemma emit_Routers_secure name router balancer h certResolver :
  resolver c = Some certResolver →
  Routers (emit c name router balancer h) !! (name +:+ "-secure")
  = Some (Some (secure_router name router certResolver)).
Proof. intros Hres. unfold emit. rewrite Hres. apply lookup_insert_eq. Qed.

Lemma emit_Routers_frame key name router balancer h k :
  derived_name c key = Some name →
  k ∉ router_keys_written c key →
  Routers (emit c name router balancer h) !! k = Routers h !! k.
Proof.
  intros Hname. unfold router_keys_written, emit. rewrite Hname.
  destruct (resolver c); simpl; intros Hk.
  - rewrite !lookup_insert_ne; [done|set_solver..].
  - rewrite lookup_insert_ne; [done|set_solver].
Qed.

Lemma emit_Routers_lookup name router balancer h k v :
  Routers (emit c name router balancer h) !! k = Some v →
  (k = name ∧ v = Some (plain_router c name router))
  ∨ (∃ certResolver, resolver c = Some certResolver
                     ∧ k = name +:+ "-secure"
                     ∧ v = Some (secure_router name router certResolver))
  ∨ Routers h !! k = Some v.
Proof.
  unfold emit. destruct (resolver c) as [certResolver|]; simpl.
  - intros [[<- <-]|[? [[<- <-]|[? ?]]%lookup_insert_Some]]%lookup_insert_Some;
      eauto 10.
  - intros [[<- <-]|[? ?]]%lookup_insert_Some; eauto.
Qed.

Lemma emit_Services_own name router balancer h :
  Services (emit c name router balancer h) !! name
  = Some (Some (rewritten_service c balancer)).
Proof. unfold emit. destruct (resolver c); simpl; apply lookup_insert_eq. Qed.

Lemma emit_Services_frame name router balancer h k :
  k ≠ name →
  Services (emit c name router balancer h) !! k = Services h !! k.
Proof.
  intros Hk. unfold emit.
  destruct (resolver c); simpl; by rewrite lookup_insert_ne.
Qed.

Lemma emit_Middlewares name router balancer h :
  Middlewares (emit c name router balancer h)
  = match resolver c with
    | Some _ => <["http2https" := Some http2https]> (Middlewares h)
    | None => Middlewares h
    end.
Proof. unfold emit. by destruct (resolver c). Qed.

(** The inner loop yields as many servers as it is given, all with the
    URI of the endpoint's web port. *)
Lemma rewrite_servers_replicate (servers : list Server) :
  rewrite_servers c servers
  = replicate (length servers)
      (mkServer (buildURI (endpoint c) (WEB (endpoint c)) defaultPath)).
Proof.
  unfold rewrite_servers.
  set (server := mkServer _).
  assert (∀ acc : list Server,
            foldl (λ servers0 _, servers0 ++ [server]) acc servers
            = acc ++ replicate (length servers) server) as Hgen.
  { induction servers as [|s servers' IH]; intros acc; simpl.
    - by rewrite app_nil_r.
    - rewrite IH. by rewrite <- app_assoc. }
  apply (Hgen []).
Qed.

End emit_facts.

(** ** The fragment the loop builds *)

Section fragment_facts.

Context (c : Client) (source : HTTPConfiguration).

Implicit Types order done : list (string * option Router).
Implicit Types output init : Configuration.
Implicit Types h : HTTPConfiguration.

Local Ltac in_done := apply elem_of_app; by left.
Local Ltac in_last :=
  apply elem_of_app; right; by apply list_elem_of_singleton.

Lemma visits_elem_of order key item :
  visits (Routers source) order →
  (key, item) ∈ order ↔ Routers source !! key = Some item.
Proof. intros ->. apply elem_of_map_to_list. Qed.

Lemma panic_free_visits order :
  panic_free source = true →
  visits (Routers source) order →
  Forall (λ entry, survives source entry.1 = true →
                   dereferenceable source entry.1 entry.2 = true) order.
Proof.
  intros Hfree%bool_decide_eq_true Hvisits. apply Forall_forall.
  intros [key item] Hin. apply (Hfree key item).
  by apply (visits_elem_of order).
Qed.

Lemma others_avoid_visits written key targets order key' item' :
  others_avoid written source key targets = true →
  visits (Routers source) order →
  (key', item') ∈ order → key' ≠ key → survives source key' = true →
  Forall (λ t, t ∉ written key') targets.
Proof.
  intros Hothers%bool_decide_eq_true Hvisits Hin Hne Hkey.
  apply (visits_elem_of order) in Hin; [|done].
  destruct (Hothers key' item' Hin) as [?|[?|?]]; [done|congruence|done].
Qed.

(** Every router of the fragment was written for a surviving entry, as its
    plain router or as its secure router. *)
Lemma routers_provenance order output k v :
  range_Routers c source order (mkConfiguration None) = Some output →
  Routers (fragment output) !! k = Some v →
  ∃ key item name router balancer,
    (key, item) ∈ order
    ∧ survivor c source key item name router balancer
    ∧ ((k = name ∧ v = Some (plain_router c name router))
       ∨ ∃ certResolver,
           resolver c = Some certResolver
           ∧ k = name +:+ "-secure"
           ∧ v = Some (secure_router name router certResolver)).
Proof.
  intros Hrange. revert k v.
  apply (range_Routers_invariant c source
    (λ done h, ∀ k v, Routers h !! k = Some v →
       ∃ key item name router balancer,
         (key, item) ∈ done
         ∧ survivor c source key item name router balancer
         ∧ ((k = name ∧ v = Some (plain_router c name router))
            ∨ ∃ certResolver,
                resolver c = Some certResolver
                ∧ k = name +:+ "-secure"
                ∧ v = Some (secure_router name router certResolver)))
    order) with (init := mkConfiguration None); [| | |done].
  - intros done key item h _ _ IH k v Hk.
    destruct (IH k v Hk) as (key' & item' & ? & ? & ? & Hin & Hrest).
    exists key', item'. do 3 eexists. split; [in_done|done].
  - intros done key item name router balancer h _ Hsurv IH k v Hk.
    apply emit_Routers_lookup in Hk as [[-> ->]|[(r & Hr & -> & ->)|Hk]].
    + exists key, item, name, router, balancer.
      split_and!; [in_last|done|by left].
    + exists key, item, name, router, balancer.
      split_and!; [in_last|done|right; by exists r].
    + destruct (IH k v Hk) as (key' & item' & ? & ? & ? & Hin & Hrest).
      exists key', item'. do 3 eexists. split; [in_done|done].
  - intros k v. simpl. by rewrite lookup_empty.
Qed.

(** Every service of the fragment was written for a surviving entry,
    under its derived name. *)
Lemma services_provenance order output k v :
  range_Routers c source order (mkConfiguration None) = Some output →
  Services (fragment output) !! k = Some v →
  ∃ key item router balancer,
    (key, item) ∈ order
    ∧ survivor c source key item k router balancer
    ∧ v = Some (rewritten_service c balancer).
Proof.
  intros Hrange. revert k v.
  apply (range_Routers_invariant c source
    (λ done h, ∀ k v, Services h !! k = Some v →
       ∃ key item router balancer,
         (key, item) ∈ done
         ∧ survivor c source key item k router balancer
         ∧ v = Some (rewritten_service c balancer))
    order) with (init := mkConfiguration None); [| | |done].
  - intros done key item h _ _ IH k v Hk.
    destruct (IH k v Hk) as (key' & item' & ? & ? & Hin & Hrest).
    exists key', item'. do 2 eexists. split; [in_done|done].
  - intros done key item name router balancer h _ Hsurv IH k v Hk.
    destruct (decide (k = name)) as [->|Hne].
    + rewrite emit_Services_own in Hk. injection Hk as <-.
      exists key, item, router, balancer. split_and!; [in_last|done..].
    + rewrite emit_Services_frame in Hk by done.
      destruct (IH k v Hk) as (key' & item' & ? & ? & Hin & Hrest).
      exists key', item'. do 2 eexists. split; [in_done|done].
  - intros k v. simpl. by rewrite lookup_empty.
Qed.

(** The middlewares of the fragment: the redirection alone when a resolver
    is set and an entry survived, nothing otherwise. *)
Lemma middlewares_shape order output :
  range_Routers c source order (mkConfiguration None) = Some output →
  Middlewares (fragment output)
  = if bool_decide (is_Some (resolver c)
                    ∧ Exists (λ entry, survives source entry.1 = true) order)
    then {["http2https" := Some http2https]} else ∅.
Proof.
  apply (range_Routers_invariant c source
    (λ done h, Middlewares h
       = if bool_decide (is_Some (resolver c)
                         ∧ Exists (λ entry, survives source entry.1 = true)
                                  done)
         then {["http2https" := Some http2https]} else ∅)
    order) with (init := mkConfiguration None).
  - intros done key item h _ Hkey ->.
    erewrite bool_decide_ext; [done|].
    rewrite Exists_app, Exists_cons, Exists_nil.
    simpl. rewrite Hkey. intuition discriminate.
  - intros done key item name router balancer h _ Hsurv IH.
    apply survivor_survives in Hsurv.
    rewrite emit_Middlewares, IH. destruct (resolver c) as [r|].
    + rewrite (bool_decide_eq_true_2 (_ ∧ Exists _ (_ ++ _))).
      2:{ split; [done|]. apply Exists_app. right. by left. }
      case_bool_decide; [apply insert_insert_eq|done].
    + rewrite !bool_decide_eq_false_2; [done|..]; by intros [[? [=]] _].
  - simpl. rewrite bool_decide_eq_false_2; [done|].
    intros [_ H]. by apply Exists_nil in H.
Qed.

End fragment_facts.

(** ** Entries that are written once *)

Section last_writer.

Context (c : Client) (source : HTTPConfiguration).

Implicit Types order done : list (string * option Router).
Implicit Types h : HTTPConfiguration.

(** If the iteration for [key0] writes [v] under [k] in one of the maps
    of the fragment and no other iteration writes under [k], the fragment
    holds [v] under [k]. *)
Lemma last_writer {A} (proj : HTTPConfiguration → gmap string A)
    (k : string) (v : A) order key0 item0 output :
  (∀ name router balancer h,
     survivor c source key0 item0 name router balancer →
     proj (emit c name router balancer h) !! k = Some v) →
  (∀ key item name router balancer h,
     (key, item) ∈ order → key ≠ key0 →
     survivor c source key item name router balancer →
     proj (emit c name router balancer h) !! k = proj h !! k) →
  (∀ item, (key0, item) ∈ order → item = item0) →
  (key0, item0) ∈ order →
  survives source key0 = true →
  range_Routers c source order (mkConfiguration None) = Some output →
  proj (fragment output) !! k = Some v.
Proof.
  intros Hown Hframe Hfun Hin Hkey0 Hrange.
  apply (range_Routers_invariant c source
           (λ done h, (key0, item0) ∈ done → proj h !! k = Some v) order)
    with (init := mkConfiguration None); [| | |done|done].
  - intros done key item h _ Hkey IH
      [?|[= <- <-]%list_elem_of_singleton]%elem_of_app; [auto|congruence].
  - intros done key item name router balancer h Hentry Hsurv IH Hmem.
    destruct (decide (key = key0)) as [->|Hne].
    + rewrite (Hfun item Hentry) in Hsurv. by eapply Hown.
    + rewrite (Hframe key item) by done.
      apply IH. apply elem_of_app in Hmem as [?|Hlast]; [done|].
      apply list_elem_of_singleton in Hlast. congruence.
  - by intros ?%elem_of_nil.
Qed.

(** Every surviving entry has a service under its derived name. *)
Lemma service_present order output key item name router balancer :
  range_Routers c source order (mkConfiguration None) = Some output →
  (key, item) ∈ order →
  survivor c source key item name router balancer →
  ∃ service, Services (fragment output) !! name = Some (Some service).
Proof.
  intros Hrange. revert key item name router balancer.
  apply (range_Routers_invariant c source
    (λ done h, ∀ key item name router balancer,
       (key, item) ∈ done →
       survivor c source key item name router balancer →
       ∃ service, Services h !! name = Some (Some service))
    order) with (init := mkConfiguration None); [| | |done].
  - intros done key' item' h _ Hkey' IH key item name router balancer
      [?|[= -> ->]%list_elem_of_singleton]%elem_of_app Hsurv; [eauto|].
    apply survivor_survives in Hsurv. congruence.
  - intros done key' item' name' router' balancer' h _ Hsurv' IH
      key item name router balancer Hmem Hsurv.
    destruct (decide (name = name')) as [->|Hne].
    + rewrite emit_Services_own. eauto.
    + rewrite emit_Services_frame by done.
      apply elem_of_app in Hmem as [?|[= -> ->]%list_elem_of_singleton];
        [eauto|].
      destruct Hsurv as (_ & Hname & _), Hsurv' as (_ & Hname' & _).
      congruence.
  - intros ????? []%elem_of_nil.
Qed.

(** The fragment is [nil] inside exactly when no entry survives. *)
Lemma no_survivor_no_fragment order :
  Forall (λ entry, survives source entry.1 = false) order →
  ∀ init, range_Routers c source order init = Some init.
Proof.
  induction 1 as [|[key item] order Hkey _ IH]; intros init; simpl in *.
  - done.
  - rewrite loop_body_skip by done. apply IH.
Qed.

End last_writer.

(** ** The plain router of a surviving key *)

Lemma before_first_unique sep key base base' :
  before_first sep key base → before_first sep key base' → base = base'.
Proof.
  intros [Hno (rest & -> & Hrest)] [Hno' (rest' & Hkey & Hrest')].
  revert base' Hno' Hkey.
  induction base as [|a base IH]; intros [|b base'] Hno' Hkey.
  - done.
  - rewrite append_nil_l, append_cons in Hkey.
    destruct Hrest as [->|[tail ->]]; [done|].
    injection Hkey as <- _. simpl in Hno'.
    by rewrite Ascii.eqb_refl in Hno'.
  - rewrite append_nil_l, append_cons in Hkey.
    destruct Hrest' as [->|[tail ->]]; [done|].
    injection Hkey as -> _. simpl in Hno.
    by rewrite Ascii.eqb_refl in Hno.
  - rewrite !append_cons in Hkey. injection Hkey as <- Hkey.
    simpl in Hno, Hno'. apply orb_false_iff in Hno as [_ Hno].
    apply orb_false_iff in Hno' as [_ Hno'].
    f_equal. by apply IH.
Qed.

Lemma before_first_derived_name c key :
  ∃ base, before_first "@" key base
          ∧ derived_name c key = Some (base +:+ "-" +:+ Host (endpoint c)).
Proof.
  destruct (derived_name_Some c key) as (base & rest & ? & _ & ? & ? & ?).
  exists base. split; [|done]. split; [done|]. by exists rest.
Qed.

Lemma survivor_of_entry c source key item :
  survives source key = true →
  dereferenceable source key item = true →
  ∃ name router balancer, survivor c source key item name router balancer.
Proof.
  intros [Hint _]%survives_true
    (router & service & balancer & -> & ? & ?)%dereferenceable_true.
  destruct (derived_name_Some c key) as (base & rest & Hname & _).
  eexists _, router, balancer. split_and!; eauto.
Qed.

Lemma prepareResponse_in_returns c source order :
  visits (Routers source) order →
  panic_free source = true →
  ∃ output, prepareResponse_in c (document source) order = Some output.
Proof.
  intros Hvisits Hfree. unfold prepareResponse_in. simpl.
  apply range_Routers_returns. by apply panic_free_visits.
Qed.

(** C2, amended. For a document whose surviving entries hold no [nil]
    pointer and every router key that is not reserved, has a service under
    the same key and whose derived name no other surviving key writes,
    the transformer returns a fragment with exactly one router under the
    segment of the key before the first [@] followed by [-] and the host:
    a plain router with the rule of the source router and with that name
    as its service. *)
Theorem plain_router_of_unshadowed_key (c : Client)
    (source : HTTPConfiguration) (order : list (string * option Router))
    (key : string) :
  visits (Routers source) order →
  panic_free source = true →
  is_Some (Routers source !! key) →
  survives source key = true →
  others_avoid (router_keys_written c) source key
               (option_list (derived_name c key)) = true →
  plain_router_emitted c source order key.
Proof.
  intros Hvisits Hfree [item Hitem] Hkey Hothers.
  destruct (prepareResponse_in_returns c source order Hvisits Hfree)
    as [output Hrun].
  pose proof Hrun as Hrange. unfold prepareResponse_in in Hrange.
  simpl in Hrange.
  assert ((key, item) ∈ order) as Hin
    by by apply (visits_elem_of source order key item Hvisits).
  destruct (survivor_of_entry c source key item Hkey)
    as (name & router & balancer & Hsurv).
  { apply bool_decide_eq_true in Hfree. by apply (Hfree key item). }
  destruct (before_first_derived_name c key) as (base & Hbase & Hname).
  destruct Hsurv as (Hint & Hname' & -> & Hsvc).
  rewrite Hname in Hname'. injection Hname' as <-.
  exists output, base, router,
    (plain_router c (base +:+ "-" +:+ Host (endpoint c)) router).
  split_and!; try done.
  apply (last_writer c source Routers _ _ order key (Some router)); try done.
  - intros name' router' balancer' h (_ & Hname' & [= <-] & _).
    rewrite Hname in Hname'. injection Hname' as <-.
    apply emit_Routers_plain.
  - intros key' item' name' router' balancer' h Hin' Hne Hsurv'.
    apply (emit_Routers_frame c key'); [by destruct Hsurv' as (_ & ? & _)|].
    pose proof (others_avoid_visits source _ _ _ order key' item'
                  Hothers Hvisits Hin' Hne
                  (survivor_survives c source _ _ _ _ _ Hsurv')) as Havoid.
    rewrite Hname in Havoid. simpl in Havoid.
    exact (proj1 (Forall_singleton _ _) Havoid).
  - intros item' Hin'. apply (visits_elem_of source order) in Hin'; [|done].
    congruence.
Qed.

Lemma plain_router_of_unshadowed_key_witness :
  plain_router_emitted sample_tls_client web_document
                       (map_to_list (Routers web_document)) "web@docker".
Proof.
  apply plain_router_of_unshadowed_key.
  - vm_compute. reflexivity.
  - vm_compute. reflexivity.
  - eexists. vm_compute. reflexivity.
  - vm_compute. reflexivity.
  - vm_compute. reflexivity.
Defined.

(** The two visiting orders of [clash_document]. *)
Lemma clash_document_orders :
  visits (Routers clash_document) docker_first
  ∧ visits (Routers clash_document) file_first.
Proof.
  unfold visits. split; vm_compute;
    first [reflexivity | apply Permutation_swap].
Qed.

Local Ltac evaluate H :=
  vm_compute in H;
  first [discriminate H | injection H as H; try subst].

(** C2 as stated fails where two surviving keys share the segment before
    the first [@]: both [web@docker] and [web@file] survive, and in either
    visiting order the router under [web-a.example] has the rule of the
    key visited last, not of the other key. *)
Lemma plain_router_shadowed :
  survives clash_document "web@docker" = true
  ∧ survives clash_document "web@file" = true
  ∧ ¬ plain_router_emitted sample_client clash_document docker_first
                           "web@docker"
  ∧ ¬ plain_router_emitted sample_client clash_document file_first
                           "web@file".
Proof.
  assert (∀ key, before_first "@" ("web" +:+ String "@" key) "web") as Hweb.
  { intros key. split; [done|]. eexists. split; [done|]. right. by eexists. }
  split_and!; [vm_compute; reflexivity..| |];
    intros (output & base & router & emitted
            & Hrun & Hbase & Hsrc & Hout & Hrule & _);
    rewrite (before_first_unique _ _ _ _ Hbase (Hweb _)) in Hout;
    evaluate Hrun; evaluate Hsrc; evaluate Hout; evaluate Hrule.
Qed.

Example clash_docker_first :
  ∃ output,
    prepareResponse_in sample_client (document clash_document) docker_first
    = Some output
    ∧ Routers (fragment output) !! "web-a.example"
      = Some (Some (mkRouter "web-a.example" "Host(`b`)" [] None))
    ∧ Services (fragment output) !! "web-a.example"
      = Some (backends ["http://a.example:8081/"; "http://a.example:8081/"]).
Proof. eexists. split; [vm_compute; reflexivity|]. by vm_compute. Qed.

Example clash_file_first :
  ∃ output,
    prepareResponse_in sample_client (document clash_document) file_first
    = Some output
    ∧ Routers (fragment output) !! "web-a.example"
      = Some (Some (mkRouter "web-a.example" "Host(`a`)" [] None))
    ∧ Services (fragment output) !! "web-a.example"
      = Some (backends ["http://a.example:8081/"]).
Proof. eexists. split; [vm_compute; reflexivity|]. by vm_compute. Qed.

(** ** The service of a surviving key *)

(** C7, amended. For a document whose surviving entries hold no [nil]
    pointer and every surviving router key whose derived name no other
    surviving key shares, the fragment holds under the derived name a
    service whose load balancer has as many servers as the source service,
    each with the URI built from the endpoint's host, its web port and the
    root path. *)
Theorem service_of_unshadowed_key (c : Client) (source : HTTPConfiguration)
    (order : list (string * option Router)) (key : string) :
  visits (Routers source) order →
  panic_free source = true →
  is_Some (Routers source !! key) →
  survives source key = true →
  others_avoid (service_keys_written c) source key
               (option_list (derived_name c key)) = true →
  service_rewritten c source order key.
Proof.
  intros Hvisits Hfree [item Hitem] Hkey Hothers.
  destruct (prepareResponse_in_returns c source order Hvisits Hfree)
    as [output Hrun].
  pose proof Hrun as Hrange. unfold prepareResponse_in in Hrange.
  simpl in Hrange.
  assert ((key, item) ∈ order) as Hin
    by by apply (visits_elem_of source order key item Hvisits).
  destruct (survivor_of_entry c source key item Hkey)
    as (name & router & balancer & Hsurv).
  { apply bool_decide_eq_true in Hfree. by apply (Hfree key item). }
  pose proof Hsurv as (Hint & Hname & -> & service & Hsvc & Hlb).
  exists output, name, service, balancer,
    (rewrite_servers c (Servers balancer)).
  split_and!; try done.
  - apply (last_writer c source Services _ _ order key (Some router));
      try done.
    + intros name' router' balancer' h
        (_ & Hname' & _ & service' & Hsvc' & Hlb').
      assert (name' = name) as -> by congruence.
      assert (balancer' = balancer) as -> by congruence.
      apply emit_Services_own.
    + intros key' item' name' router' balancer' h Hin' Hne Hsurv'.
      apply emit_Services_frame.
      pose proof (others_avoid_visits source _ _ _ order key' item'
                    Hothers Hvisits Hin' Hne
                    (survivor_survives c source _ _ _ _ _ Hsurv')) as Havoid.
      rewrite Hname in Havoid. simpl in Havoid.
      pose proof (proj1 (Forall_singleton _ _) Havoid) as Hfresh.
      simpl in Hfresh. unfold service_keys_written in Hfresh.
      destruct Hsurv' as (_ & Hname' & _). rewrite Hname' in Hfresh.
      by apply not_elem_of_cons in Hfresh as [? _].
    + intros item' Hin'. apply (visits_elem_of source order) in Hin'; [|done].
      congruence.
  - rewrite rewrite_servers_replicate. apply length_replicate.
  - rewrite rewrite_servers_replicate. by apply Forall_replicate.
Qed.

Lemma service_of_unshadowed_key_witness :
  service_rewritten sample_tls_client web_document
                    (map_to_list (Routers web_document)) "web@docker".
Proof.
  apply service_of_unshadowed_key.
  - vm_compute. reflexivity.
  - vm_compute. reflexivity.
  - eexists. vm_compute. reflexivity.
  - vm_compute. reflexivity.
  - vm_compute. reflexivity.
Defined.

(** C7 as stated fails where two surviving keys share the derived name:
    [web@docker] has one server and [web@file] two, and in either visiting
    order the service under [web-a.example] has as many servers as the
    service of the key visited last. *)
Lemma service_shadowed :
  survives clash_document "web@docker" = true
  ∧ survives clash_document "web@file" = true
  ∧ ¬ service_rewritten sample_client clash_document docker_first
                        "web@docker"
  ∧ ¬ service_rewritten sample_client clash_document file_first "web@file".
Proof.
  split_and!; [vm_compute; reflexivity..| |];
    intros (output & name & service & balancer & servers
            & Hrun & Hname & Hsvc & Hlb & Hout & Hlen & _);
    evaluate Hrun; evaluate Hname; evaluate Hsvc; evaluate Hlb;
    evaluate Hout; evaluate Hlen.
Qed.

(** ** The secure router and the redirection *)

(** A derived name ends with [-secure] only if [-] and the host do. *)
Lemma derived_name_not_secure host base :
  strings.HasSuffix ("-" +:+ host) "-secure" = false →
  strings.HasSuffix (base +:+ "-" +:+ host) "-secure" = false.
Proof.
  intros Hhost. apply HasSuffix_false. intros [p Hp].
  apply HasSuffix_false in Hhost.
  apply append_eq_ends_with in Hp as [?|[q Hq]]; [done|].
  destruct q as [|a q].
  - apply Hhost. exists "". symmetry. exact Hq.
  - rewrite append_cons in Hq. injection Hq as _ Hq.
    apply (f_equal (strings.contains_byte "-")) in Hq.
    rewrite !contains_byte_append in Hq. simpl in Hq.
    by rewrite orb_true_r in Hq.
Qed.



Example clash_secure_docker_first :
  ∃ output,
    prepareResponse_in sample_tls_client (document clash_document)
                       docker_first = Some output
    ∧ map_to_list (Routers (fragment output))
      ≡ₚ [("web-a.example",
           Some (mkRouter "web-a.example" "Host(`b`)" ["http2https"] None));
          ("web-a.example-secure",
           Some (mkRouter "web-a.example" "Host(`b`)" []
                   (Some (mkRouterTLSConfig "myresolver"))))].
Proof.
  eexists. split; [vm_compute; reflexivity|].
  vm_compute. first [reflexivity | apply Permutation_swap].
Qed.


(** ** The keys of a fragment *)

Lemma separable_stamps c1 c2 s1 s2 :
  separable c1 c2 = true →
  s1 ∈ stamps c1 → s2 ∈ stamps c2 →
  ¬ ends_with s1 s2 ∧ ¬ ends_with s2 s1.
Proof.
  unfold separable. rewrite forallb_forall. intros Hsep Hs1 Hs2.
  apply list_elem_of_In in Hs1, Hs2.
  specialize (Hsep s1 Hs1). rewrite forallb_forall in Hsep.
  specialize (Hsep s2 Hs2).
  apply andb_true_iff in Hsep as [H12%negb_true_iff H21%negb_true_iff].
  by rewrite <- !HasSuffix_false.
Qed.

(** Every key of the fragment ends with a stamp of its endpoint, and every
    service key with [-] and the host. *)
Lemma keys_stamped c source order output :
  range_Routers c source order (mkConfiguration None) = Some output →
  (∀ k, k ∈ dom (Services (fragment output)) →
        ends_with k ("-" +:+ Host (endpoint c)))
  ∧ (∀ k, k ∈ keys output → ∃ s, s ∈ stamps c ∧ ends_with k s).
Proof.
  intros Hrange.
  assert (∀ k, k ∈ dom (Services (fragment output)) →
               ends_with k ("-" +:+ Host (endpoint c))) as Hservices.
  { intros k [v Hk]%elem_of_dom.
    destruct (services_provenance c source order output k v Hrange Hk)
      as (key & item & router & balancer & _ & (_ & Hname & _) & _).
    apply derived_name_stamp in Hname as [base ->]. by exists base. }
  split; [done|]. intros k [[v Hk]%elem_of_dom|Hk]%elem_of_union.
  - destruct (routers_provenance c source order output k v Hrange Hk)
      as (key & item & name & router & balancer & _ & (_ & Hname & _)
          & [[-> _]|(r & Hr & -> & _)]);
      apply derived_name_stamp in Hname as [base ->].
    + exists ("-" +:+ Host (endpoint c)). split; [by left|by exists base].
    + exists ("-" +:+ Host (endpoint c) +:+ "-secure"). split.
      * unfold stamps. rewrite Hr. right. by left.
      * exists base. by rewrite !append_assoc.
  - exists ("-" +:+ Host (endpoint c)). split; [by left|auto].
Qed.

(** C1, amended. For documents whose surviving entries hold no [nil]
    pointer: every service key of the fragment ends with [-] and the host
    of the endpoint, and every router key with [-] and the host or, when a
    resolver name is supplied, with [-], the host and [-secure]; so with
    no resolver every key ends with the host. The fragments of two
    endpoints share no key when none of the suffixes the one stamps ends
    with a suffix the other stamps. *)
Theorem stamped_keys_do_not_collide
    (c1 : Client) (source1 : HTTPConfiguration)
    (order1 : list (string * option Router))
    (c2 : Client) (source2 : HTTPConfiguration)
    (order2 : list (string * option Router)) :
  visits (Routers source1) order1 → panic_free source1 = true →
  visits (Routers source2) order2 → panic_free source2 = true →
  ∃ output1,
    prepareResponse_in c1 (document source1) order1 = Some output1
    ∧ (∀ k, k ∈ dom (Services (fragment output1)) →
            ends_with k ("-" +:+ Host (endpoint c1)))
    ∧ (∀ k, k ∈ dom (Routers (fragment output1)) →
            ends_with k ("-" +:+ Host (endpoint c1))
            ∨ (is_Some (resolver c1)
               ∧ ends_with k ("-" +:+ Host (endpoint c1) +:+ "-secure")))
    ∧ (resolver c1 = None → keys_end_with_host c1 source1 order1)
    ∧ (separable c1 c2 = true →
       fragments_disjoint c1 source1 order1 c2 source2 order2).
Proof.
  intros Hvisits1 Hfree1 Hvisits2 Hfree2.
  destruct (prepareResponse_in_returns c1 source1 order1 Hvisits1 Hfree1)
    as [output1 Hrun1].
  destruct (prepareResponse_in_returns c2 source2 order2 Hvisits2 Hfree2)
    as [output2 Hrun2].
  pose proof Hrun1 as Hrange1. pose proof Hrun2 as Hrange2.
  unfold prepareResponse_in in Hrange1, Hrange2. simpl in Hrange1, Hrange2.
  destruct (keys_stamped c1 source1 order1 output1 Hrange1)
    as [Hservices1 Hkeys1].
  destruct (keys_stamped c2 source2 order2 output2 Hrange2) as [_ Hkeys2].
  exists output1. split_and!; [done|done| | |].
  - intros k Hk. destruct (Hkeys1 k) as (s & Hs & Hend).
    { apply elem_of_union. by left. }
    unfold stamps in Hs. apply elem_of_cons in Hs as [->|Hs]; [by left|].
    destruct (resolver c1) as [r|]; [|by apply elem_of_nil in Hs].
    apply list_elem_of_singleton in Hs as ->. right. by split.
  - intros Hres. exists output1. split; [done|]. intros k Hk.
    destruct (Hkeys1 k Hk) as (s & Hs & [p ->]).
    unfold stamps in Hs. rewrite Hres in Hs.
    apply list_elem_of_singleton in Hs as ->.
    exists (p +:+ "-"). by rewrite append_assoc.
  - intros Hsep. exists output1, output2. split_and!; [done..|].
    intros k Hk1 Hk2.
    destruct (Hkeys1 k Hk1) as (s1 & Hs1 & [p1 Hp1]).
    destruct (Hkeys2 k Hk2) as (s2 & Hs2 & [p2 Hp2]).
    destruct (separable_stamps c1 c2 s1 s2 Hsep Hs1 Hs2) as [H12 H21].
    rewrite Hp1 in Hp2. by apply append_eq_ends_with in Hp2 as [?|?].
Qed.

Lemma stamped_keys_do_not_collide_witness :
  keys_end_with_host sample_client web_document
                     (map_to_list (Routers web_document))
  ∧ fragments_disjoint
      sample_tls_client web_document (map_to_list (Routers web_document))
      prod_client web_eu_document (map_to_list (Routers web_eu_document)).
Proof.
  assert (visits (Routers web_document) (map_to_list (Routers web_document)))
    as Hweb by (vm_compute; reflexivity).
  assert (visits (Routers web_eu_document)
                 (map_to_list (Routers web_eu_document)))
    as Heu by (vm_compute; reflexivity).
  assert (panic_free web_document = true) as Hfree
    by (vm_compute; reflexivity).
  assert (panic_free web_eu_document = true) as Hfree'
    by (vm_compute; reflexivity).
  split.
  - destruct (stamped_keys_do_not_collide
                sample_client web_document _ prod_client web_eu_document _
                Hweb Hfree Heu Hfree')
      as (output & _ & _ & _ & Hhost & _).
    apply Hhost. reflexivity.
  - destruct (stamped_keys_do_not_collide
                sample_tls_client web_document _ prod_client web_eu_document _
                Hweb Hfree Heu Hfree')
      as (output & _ & _ & _ & _ & Hdisjoint).
    apply Hdisjoint. vm_compute. reflexivity.
Defined.

Local Ltac key_of_routers :=
  apply elem_of_union; left; apply elem_of_dom; eexists;
  vm_compute; reflexivity.

(** C1 as stated fails twice. With a resolver name, the router key
    [web-a.example-secure] does not end with the host [a.example]. And the
    endpoints with the distinct hosts [prod] and [eu-prod] both emit
    [web-eu-prod], the one for the router [web-eu@docker], the other for
    [web@docker]. *)
Lemma keys_collide :
  ¬ keys_end_with_host sample_tls_client web_document
                       (map_to_list (Routers web_document))
  ∧ Host (endpoint prod_client) ≠ Host (endpoint eu_prod_client)
  ∧ ¬ fragments_disjoint
        prod_client web_eu_document (map_to_list (Routers web_eu_document))
        eu_prod_client web_document (map_to_list (Routers web_document)).
Proof.
  split_and!; [|done|].
  - intros (output & Hrun & Hkeys). evaluate Hrun.
    assert (ends_with "web-a.example-secure" "a.example") as Hbad.
    { apply Hkeys. key_of_routers. }
    apply HasSuffix_true in Hbad. evaluate Hbad.
  - intros (output1 & output2 & Hrun1 & Hrun2 & Hdisjoint).
    evaluate Hrun1. evaluate Hrun2.
    apply (Hdisjoint "web-eu-prod"); key_of_routers.
Qed.

(** ** The service of the secure router *)

(** C10, amended. For a document whose surviving entries hold no [nil]
    pointer, with a resolver name supplied: every router with a TLS
    configuration in the fragment is keyed by its service reference
    followed by [-secure], carries the supplied resolver, and refers to the
    plain derived name of a surviving key, under which the fragment has a
    service; the services of the fragment are keyed by exactly the plain
    derived names of the surviving keys, so no service key ends with
    [-secure] unless [-] followed by the host does. *)
Theorem secure_router_shares_service (c : Client)
    (source : HTTPConfiguration) (order : list (string * option Router)) :
  visits (Routers source) order →
  panic_free source = true →
  is_Some (resolver c) →
  secure_routers_share_service c source order
  ∧ services_under_derived_names c source order
  ∧ (strings.HasSuffix ("-" +:+ Host (endpoint c)) "-secure" = false →
     no_secure_service_key c source order).
Proof.
  intros Hvisits Hfree _.
  destruct (prepareResponse_in_returns c source order Hvisits Hfree)
    as [output Hrun].
  pose proof Hrun as Hrange. unfold prepareResponse_in in Hrange.
  simpl in Hrange.
  assert (∀ key item name router balancer,
            (key, item) ∈ order →
            survivor c source key item name router balancer →
            survives source key = true
            ∧ is_Some (Routers source !! key)
            ∧ derived_name c key = Some name) as Hkey.
  { intros key item name router balancer Hin Hsurv. split_and!.
    - by eapply survivor_survives.
    - exists item. by apply (visits_elem_of source order).
    - by destruct Hsurv as (_ & ? & _). }
  split_and!.
  - exists output. split; [done|]. intros k router Hk [tls Htls].
    destruct (routers_provenance c source order output k _ Hrange Hk)
      as (key & item & name & router' & balancer & Hin & Hsurv
          & [[_ [= ->]]|(r & Hr & -> & [= ->])]); [done|].
    simpl. rewrite Hr. split_and!; [done..| |by exists key; eauto].
    destruct (service_present c source order output key item name router'
                balancer Hrange Hin Hsurv) as [service ->].
    by eexists.
  - exists output. split; [done|]. intros k. split.
    + intros [v Hk].
      destruct (services_provenance c source order output k v Hrange Hk)
        as (key & item & router & balancer & Hin & Hsurv & _).
      exists key. eauto.
    + intros (key & Hsurvives & [item Hitem] & Hname).
      assert ((key, item) ∈ order) as Hin
        by by apply (visits_elem_of source order key item Hvisits).
      destruct (survivor_of_entry c source key item Hsurvives)
        as (name & router & balancer & Hsurv).
      { apply bool_decide_eq_true in Hfree. by apply (Hfree key item). }
      assert (name = k) as ->.
      { destruct Hsurv as (_ & Hname' & _). congruence. }
      destruct (service_present c source order output key item k router
                  balancer Hrange Hin Hsurv) as [service ->].
      by eexists.
  - intros Hhost. exists output. split; [done|]. intros k [v Hk].
    destruct (services_provenance c source order output k v Hrange Hk)
      as (key & item & router & balancer & _ & (_ & Hname & _) & _).
    apply derived_name_stamp in Hname as [base ->].
    by apply derived_name_not_secure.
Qed.

Lemma secure_router_shares_service_witness :
  secure_routers_share_service sample_tls_client web_document
                               (map_to_list (Routers web_document))
  ∧ services_under_derived_names sample_tls_client web_document
                                 (map_to_list (Routers web_document))
  ∧ no_secure_service_key sample_tls_client web_document
                          (map_to_list (Routers web_document)).
Proof.
  destruct (secure_router_shares_service
              sample_tls_client web_document
              (map_to_list (Routers web_document)))
    as (Hshare & Hnames & Hkeys).
  - vm_compute. reflexivity.
  - vm_compute. reflexivity.
  - eexists. reflexivity.
  - split_and!; [done..|]. apply Hkeys. vm_compute. reflexivity.
Defined.

(** C10 as stated fails for a host that ends with [-secure]: the service
    of [web@docker] is created under [web-vault-secure]. *)
Lemma service_key_ends_with_secure :
  is_Some (resolver vault_tls_client)
  ∧ ¬ no_secure_service_key vault_tls_client web_document
                            (map_to_list (Routers web_document)).
Proof.
  split; [by eexists|].
  intros (output & Hrun & Hkeys). evaluate Hrun.
  assert (strings.HasSuffix "web-vault-secure" "-secure" = false) as Hbad.
  { apply Hkeys. eexists. vm_compute. reflexivity. }
  evaluate Hbad.
Qed.

(** ** Routers that are skipped *)

Lemma visits_filter {A} (P : string * A → Prop) `{∀ x, Decision (P x)}
    (m : gmap string A) (order : list (string * A)) :
  visits m order → visits (filter P m) (filter P order).
Proof.
  unfold visits. intros ->. apply NoDup_Permutation.
  - apply NoDup_filter, NoDup_map_to_list.
  - apply NoDup_map_to_list.
  - intros [k x]. rewrite list_elem_of_filter, !elem_of_map_to_list.
    rewrite map_lookup_filter_Some. tauto.
Qed.

Lemma range_Routers_same_Services c source source' order init :
  Services source' = Services source →
  range_Routers c source' order init = range_Routers c source order init.
Proof.
  intros Hsame. revert init.
  induction order as [|[key item] order IH]; intros init; simpl; [done|].
  assert (loop_body c source' key item init = loop_body c source key item init)
    as -> by (unfold loop_body; by rewrite Hsame).
  destruct (loop_body c source key item init); simpl; [apply IH|done].
Qed.

(** C4. For every document, endpoint and visiting order, the iteration
    for a router whose key ends with [@internal] leaves the output as it
    is, and the transformer does on the document what it does on the
    document without these routers, visited in the same order: they
    contribute no router, service or middleware to the fragment. Every
    router, service and middleware of the fragment was written for a key
    that does not end with [@internal]. *)
Theorem internal_routers_contribute_nothing (c : Client)
    (source : HTTPConfiguration) (order : list (string * option Router)) :
  (∀ key item output,
     ends_with key "@internal" →
     loop_body c source key item output = Some output)
  ∧ prepareResponse_in c (document source) order
    = prepareResponse_in c (document (without_internal source))
                         (filter public order)
  ∧ (visits (Routers source) order →
     visits (Routers (without_internal source)) (filter public order))
  ∧ (∀ output k,
       prepareResponse_in c (document source) order = Some output →
       (is_Some (Routers (fragment output) !! k) →
        ∃ key, key ∈ order.*1 ∧ ¬ ends_with key "@internal"
               ∧ k ∈ router_keys_written c key)
       ∧ (is_Some (Services (fragment output) !! k) →
          ∃ key, key ∈ order.*1 ∧ ¬ ends_with key "@internal"
                 ∧ k ∈ service_keys_written c key)
       ∧ (is_Some (Middlewares (fragment output) !! k) →
          ∃ key, key ∈ order.*1 ∧ ¬ ends_with key "@internal"
                 ∧ survives source key = true)).
Proof.
  split_and!; [| | |intros output k Hrun; split_and!].
  - intros key item output Hint%HasSuffix_true.
    by apply loop_body_internal.
  - unfold prepareResponse_in. simpl.
    rewrite (range_Routers_same_Services c source (without_internal source))
      by done.
    apply range_Routers_filter. intros [key item] _ Hint.
    apply survives_false. left. unfold public in Hint. simpl in *.
    by destruct (strings.HasSuffix key "@internal").
  - apply visits_filter.
  - intros [v Hk].
    destruct (routers_provenance c source order output k v Hrun Hk)
      as (key & item & name & router & balancer & Hin
          & (Hint & Hname & _) & Hcases).
    exists key. split_and!.
    + apply list_elem_of_fmap. by exists (key, item).
    + by apply HasSuffix_false.
    + unfold router_keys_written. rewrite Hname.
      destruct Hcases as [[-> _]|(r & -> & -> & _)]; [by left|].
      right. by left.
  - intros [v Hk].
    destruct (services_provenance c source order output k v Hrun Hk)
      as (key & item & router & balancer & Hin & (Hint & Hname & _) & _).
    exists key. split_and!.
    + apply list_elem_of_fmap. by exists (key, item).
    + by apply HasSuffix_false.
    + unfold service_keys_written. rewrite Hname. by left.
  - intros [v Hk].
    rewrite (middlewares_shape c source order output Hrun) in Hk.
    case_bool_decide as Hsome; [|by rewrite lookup_empty in Hk].
    destruct Hsome as [_ ([key item] & Hin & Hkey)%Exists_exists].
    simpl in Hkey. exists key. split_and!; [|  |done].
    + apply list_elem_of_fmap. by exists (key, item).
    + apply HasSuffix_false. by apply survives_true in Hkey as [? _].
Qed.

Lemma internal_routers_contribute_nothing_witness :
  visits (Routers (without_internal internal_document))
         (filter public (map_to_list (Routers internal_document)))
  ∧ prepareResponse sample_tls_client (document internal_document)
    = prepareResponse sample_tls_client (document web_document).
Proof.
  destruct (internal_routers_contribute_nothing
              sample_tls_client internal_document
              (map_to_list (Routers internal_document)))
    as (_ & Hsame & Hvisits & _).
  split.
  - apply Hvisits. vm_compute. reflexivity.
  - etrans; [exact Hsame|]. vm_compute. reflexivity.
Defined.

(** C5. For every document, endpoint and visiting order, the iteration
    for a router key with no entry in the services of the source leaves
    the output as it is and raises no error, and the transformer does what
    it does on the visit without these routers. If every router of the
    document is dropped this way, the transformer returns the empty
    fragment, and [FetchRaw], for a document that has a router and a
    service, sends it and returns no error. *)
Theorem dangling_routers_are_dropped (c : Client)
    (source : HTTPConfiguration) (order : list (string * option Router)) :
  (∀ key item output,
     Services source !! key = None →
     loop_body c source key item output = Some output)
  ∧ prepareResponse_in c (document source) order
    = prepareResponse_in c (document source) (filter (served source) order)
  ∧ (visits (Routers source) order →
     all_dangling source = true →
     prepareResponse_in c (document source) order
     = Some (mkConfiguration None)
     ∧ ∀ r,
         httpCall c r = (Some (document source), None) →
         (0 < size (Routers source))%nat →
         (0 < size (Services source))%nat →
         FetchRaw_in c r order
         = Some (mkFetched (Some (mkConfiguration None)) None)).
Proof.
  split_and!.
  - intros key item output. apply loop_body_dangling.
  - unfold prepareResponse_in. simpl.
    apply range_Routers_filter. intros [key item] _ Hnone.
    apply survives_false. right. by apply eq_None_not_Some.
  - intros Hvisits Hall%bool_decide_eq_true.
    assert (prepareResponse_in c (document source) order
            = Some (mkConfiguration None)) as Hrun.
    { unfold prepareResponse_in. simpl. apply no_survivor_no_fragment.
      apply Forall_forall. intros [key item] Hin.
      apply (visits_elem_of source order) in Hin; [|done].
      apply survives_false. right. by apply (Hall key item). }
    split; [done|]. intros r Hcall Hrouters Hservices.
    unfold FetchRaw_in. rewrite Hcall. simpl.
    rewrite !bool_decide_eq_true_2 by done. simpl.
    by rewrite Hrun.
Qed.

Lemma dangling_routers_are_dropped_witness :
  prepareResponse_in sample_tls_client (document dangling_document)
                     (map_to_list (Routers dangling_document))
  = Some (mkConfiguration None)
  ∧ FetchRaw sample_tls_client (Body "{}" (inr (Some dangling_document)) None)
    = Some (mkFetched (Some (mkConfiguration None)) None).
Proof.
  destruct (dangling_routers_are_dropped
              sample_tls_client dangling_document
              (map_to_list (Routers dangling_document)))
    as (_ & _ & Hall).
  destruct Hall as [Hrun Hfetch].
  - vm_compute. reflexivity.
  - vm_compute. reflexivity.
  - split; [exact Hrun|]. apply Hfetch.
    + reflexivity.
    + vm_compute. lia.
    + vm_compute. lia.
Defined.

(** ** Fetching *)




(** A [null] body decodes into no HTTP section at all: [FetchRaw] panics
    on it. *)
Example FetchRaw_null_body c order :
  FetchRaw_in c (Body "null" (inr None) None) order = None.
Proof. reflexivity. Qed.

(** A body whose [Close] fails: the error of [Close] is returned, whatever
    the document holds. *)
Example FetchRaw_close_failed c source order :
  FetchRaw_in c (Body "{}" (inr (Some source)) (Some "closed")) order
  = Some (mkFetched None (Some (Foreign "closed"))).
Proof. reflexivity. Qed.

(** ** The start-up gate *)

Section PrepareClients_facts.

Context `{Network W}.




End PrepareClients_facts.



Example PrepareClients_answered :
  PrepareClients sample_config 4%nat
  = ((Some [mkClient (http.mkClient None) sample_endpoint (Some "myresolver");
            mkClient (http.mkClient
                        (Some (http.mkTransport
                                 (Some (http.mk_tls_Config true)))))
                     insecure_endpoint (Some "myresolver")],
      None),
     0%nat,
     [mkProbe "http://a.example:8080/" false true;
      mkProbe "http://a.example:8081/" false true;
      mkProbe "https://b.example:9090/" true true;
      mkProbe "https://b.example:9091/" true true]).
Proof. vm_compute. reflexivity. Qed.

Example PrepareClients_unanswered :
  PrepareClients sample_config 3%nat
  = ((None,
      Some (Errorf "could not call request(%s): %w"
                   ["https://b.example:9091/"]
                   (Foreign "connection refused"))),
     0%nat,
     [mkProbe "http://a.example:8080/" false true;
      mkProbe "http://a.example:8081/" false true;
      mkProbe "https://b.example:9090/" true true;
      mkProbe "https://b.example:9091/" true false]).
Proof. vm_compute. reflexivity. Qed.

(** ** Panics and end-to-end scenarios *)

(** The transformer panics exactly when a surviving entry holds a [nil]
    pointer: a [null] router or service, or a service without a load
    balancer. *)
Lemma prepareResponse_in_panics_iff c source order :
  visits (Routers source) order →
  prepareResponse_in c (document source) order = None
  ↔ panic_free source = false.
Proof.
  intros Hvisits. split.
  - intros Hnone. destruct (panic_free source) eqn:Hfree; [|done].
    destruct (prepareResponse_in_returns c source order Hvisits Hfree)
      as [output Hrun]. congruence.
  - intros Hfree%bool_decide_eq_false.
    apply map_not_Forall in Hfree as (key & item & Hitem & Hbad);
      [|apply _].
    unfold prepareResponse_in. simpl.
    apply (range_Routers_panics c source order _ key item).
    + by apply (visits_elem_of source order).
    + destruct (survives source key); [done|]. by destruct Hbad.
    + destruct (dereferenceable source key item); [|done]. by destruct Hbad.
Qed.

(** A router whose service is weighted (no load balancer). *)
Example prepareResponse_weighted_service :
  prepareResponse sample_client
    (document (mkHTTPConfiguration
                 {[ "app@file" := rule "Host(`a`)" ]}
                 {[ "app@file" := Some (mkService None) ]} ∅))
  = None.
Proof. vm_compute. reflexivity. Qed.

Example scenario_without_resolver :
  prepareResponse sample_client (document web_document)
  = Some (document
            (mkHTTPConfiguration
               {[ "web-a.example"
                  := Some (mkRouter "web-a.example" "Host(`a`)" [] None) ]}
               {[ "web-a.example"
                  := backends ["http://a.example:8081/";
                               "http://a.example:8081/"] ]}
               ∅)).
Proof. vm_compute. reflexivity. Qed.

Example scenario_with_resolver :
  prepareResponse sample_tls_client (document web_document)
  = Some (document
            (mkHTTPConfiguration
               {[ "web-a.example"
                  := Some (mkRouter "web-a.example" "Host(`a`)"
                             ["http2https"] None);
                  "web-a.example-secure"
                  := Some (mkRouter "web-a.example" "Host(`a`)" []
                             (Some (mkRouterTLSConfig "myresolver"))) ]}
               {[ "web-a.example"
                  := backends ["http://a.example:8081/";
                               "http://a.example:8081/"] ]}
               {[ "http2https" := Some http2https ]})).
Proof. vm_compute. reflexivity. Qed.

Example scenario_internal_only :
  FetchRaw sample_client (Body "{}" (inr (Some orphan_document)) None)
  = Some (mkFetched None
            (Some (Errorf "%w (1client:%q)" ["a.example"]
                          (Sentinel "received empty response")))).
Proof. vm_compute. reflexivity. Qed.

(** A router without its service in a document with no service at all is
    the empty-response condition; with some other service it is an empty
    fragment and no error. *)
Example scenario_dangling_no_services :
  FetchRaw sample_client
    (Body "{}" (inr (Some (mkHTTPConfiguration
                             {[ "router@x" := rule "Host(`a`)" ]} ∅ ∅)))
          None)
  = Some (mkFetched None (Some (empty_response_error sample_client))).
Proof. vm_compute. reflexivity. Qed.

Example scenario_dangling :
  FetchRaw sample_client (Body "{}" (inr (Some dangling_document)) None)
  = Some (mkFetched (Some (mkConfiguration None)) None).
Proof. vm_compute. reflexivity. Qed.

Example scenario_colliding_hosts :
  prepareResponse prod_client (document web_eu_document)
  = Some (document
            (mkHTTPConfiguration
               {[ "web-eu-prod"
                  := Some (mkRouter "web-eu-prod" "Host(`a`)" [] None) ]}
               {[ "web-eu-prod" := backends ["http://prod:8081/"] ]}
               ∅))
  ∧ prepareResponse eu_prod_client (document web_document)
    = Some (document
              (mkHTTPConfiguration
                 {[ "web-eu-prod"
                    := Some (mkRouter "web-eu-prod" "Host(`a`)" [] None) ]}
                 {[ "web-eu-prod"
                    := backends ["http://eu-prod:8081/";
                                 "http://eu-prod:8081/"] ]}
                 ∅)).
Proof. split; vm_compute; reflexivity. Qed.

Example scenario_host_ending_with_secure :
  prepareResponse vault_tls_client (document web_document)
  = Some (document
            (mkHTTPConfiguration
               {[ "web-vault-secure"
                  := Some (mkRouter "web-vault-secure" "Host(`a`)"
                             ["http2https"] None);
                  "web-vault-secure-secure"
                  := Some (mkRouter "web-vault-secure" "Host(`a`)" []
                             (Some (mkRouterTLSConfig "myresolver"))) ]}
               {[ "web-vault-secure"
                  := backends ["http://vault-secure:8081/";
                               "http://vault-secure:8081/"] ]}
               {[ "http2https" := Some http2https ]})).
Proof. vm_compute. reflexivity. Qed.

(** * Further properties *)

(** ** Validation of the configuration *)

Lemma Validate_Endpoints_None i endpoints :
  Validate_Endpoints i endpoints = None ↔ Forall valid_endpoint endpoints.
Proof.
  revert i. induction endpoints as [|e rest IH]; intros i; simpl.
  - split; [constructor|done].
  - rewrite Forall_cons. unfold valid_endpoint at 1.
    destruct (String.eqb_spec (Host e) "") as [Hhost|Hhost].
    { split; [done|]. by intros [[? _] _]. }
    destruct (Z.leb_spec (API e) 0) as [Hapi|Hapi].
    { split; [done|]. intros [(_ & ? & _) _]. lia. }
    destruct (Z.leb_spec (WEB e) 0) as [Hweb|Hweb].
    { split; [done|]. intros [(_ & _ & ?) _]. lia. }
    rewrite IH. split; [by intros ?|by intros [_ ?]].
Qed.

(** X1. [Validate] accepts a configuration exactly when it is there, both
    durations are positive, there is an endpoint, and every endpoint has a
    host and two positive ports. *)
Theorem Validate_accepts_iff (c : option Config) :
  Validate c = None ↔
  ∃ cfg, c = Some cfg
         ∧ 0 < ConnTimeout cfg
         ∧ 0 < PollInterval cfg
         ∧ Endpoints cfg ≠ []
         ∧ Forall valid_endpoint (Endpoints cfg).
Proof.
  destruct c as [cfg|]; simpl; [|split; [done|by intros (? & ? & _)]].
  destruct (Z.leb_spec (ConnTimeout cfg) 0).
  { split; [done|]. intros (? & [= <-] & ?). lia. }
  destruct (Z.leb_spec (PollInterval cfg) 0).
  { split; [done|]. intros (? & [= <-] & ?). lia. }
  case_bool_decide as Hlen.
  { split; [done|]. intros (? & [= <-] & _ & _ & Hne & _).
    by destruct (Endpoints cfg). }
  rewrite Validate_Endpoints_None. split.
  - intros Hall. exists cfg. split_and!; try done.
    intros Hnil. by rewrite Hnil in Hlen.
  - by intros (? & [= <-] & _ & _ & _ & ?).
Qed.

Lemma Validate_Endpoints_first i good e rest :
  Forall valid_endpoint good →
  ¬ valid_endpoint e →
  Validate_Endpoints i (good ++ e :: rest)
  = Some (endpoint_error (i + Z.of_nat (length good)) e).
Proof.
  intros Hgood Hbad. revert i.
  induction Hgood as [|e' good (Hhost & Hapi & Hweb) _ IH]; intros i; simpl.
  - rewrite Z.add_0_r. unfold endpoint_error, valid_endpoint in *.
    destruct (String.eqb_spec (Host e) ""); [done|].
    destruct (Z.leb_spec (API e) 0); [done|].
    destruct (Z.leb_spec (WEB e) 0); [done|]. destruct Hbad.
    by split_and!.
  - apply String.eqb_neq in Hhost. rewrite Hhost.
    destruct (Z.leb_spec (API e') 0); [lia|].
    destruct (Z.leb_spec (WEB e') 0); [lia|].
    rewrite IH. do 2 f_equal. lia.
Qed.

(** X2. With positive durations, [Validate] reports the first endpoint that
    fails a check, with its index in the list and the first check it
    fails: host, then API port, then web port; what follows it in the
    list is not looked at. *)
Theorem Validate_reports_first_endpoint (cfg : Config)
    (good : list Endpoint) (e : Endpoint) (rest : list Endpoint) :
  0 < ConnTimeout cfg →
  0 < PollInterval cfg →
  Endpoints cfg = good ++ e :: rest →
  Forall valid_endpoint good →
  ¬ valid_endpoint e →
  Validate (Some cfg)
  = Some (endpoint_error (Z.of_nat (length good)) e).
Proof.
  intros Hconn Hpoll Hlist Hgood Hbad. simpl.
  destruct (Z.leb_spec (ConnTimeout cfg) 0); [lia|].
  destruct (Z.leb_spec (PollInterval cfg) 0); [lia|].
  rewrite Hlist. rewrite bool_decide_eq_false_2.
  - by rewrite Validate_Endpoints_first.
  - rewrite length_app. simpl. lia.
Qed.

Lemma Validate_reports_first_endpoint_witness :
  Validate (Some broken_config)
  = Some (fmt_Errorf "empty #%d endpoint apiPort: %d"
                     [arg_int 1; arg_int 0]).
Proof.
  apply (Validate_reports_first_endpoint
           broken_config [sample_endpoint] (mkEndpoint "c.example" 0 (-1) None)
           [mkEndpoint "" 1 1 None]).
  - reflexivity.
  - reflexivity.
  - reflexivity.
  - repeat constructor; simpl; (done || lia).
  - intros (_ & Hapi & _). simpl in Hapi. lia.
Defined.




(** ** The fetcher *)





(** X5. Whenever [FetchRaw] returns, it has sent a fragment or returns an
    error, never both and never neither: the value sent is [nil] exactly
    when the error is not. A document whose body fails to close is
    dropped. *)
Theorem FetchRaw_sends_fragment_or_returns_error (c : Client)
    (r : raw_response) (order : list (string * option Router))
    (result : fetched) :
  FetchRaw_in c r order = Some result →
  (sent result = None ↔ is_Some (returned result))
  ∧ (∀ body http cause,
       r = Body body (inr http) (Some cause) →
       result = mkFetched None (Some (Foreign cause))).
Proof.
  unfold FetchRaw_in. intros Hfetch. split.
  - destruct (httpCall c r) as [res [err|]].
    { injection Hfetch as <-. simpl. split; [by eexists|done]. }
    destruct res as [[[source|]]|]; simpl in Hfetch; try done.
    destruct (bool_decide (0 < size (Routers source))%nat
              && bool_decide (0 < size (Services source))%nat).
    + destruct (prepareResponse_in c _ order); simpl in Hfetch; [|done].
      injection Hfetch as <-. simpl. split; [done|by intros [? ?]].
    + injection Hfetch as <-. simpl. split; [by eexists|done].
  - intros body http cause ->. simpl in Hfetch. by injection Hfetch.
Qed.

Lemma FetchRaw_sends_fragment_or_returns_error_witness :
  ∃ result,
    FetchRaw_in sample_client
                (Body "{}" (inr (Some web_document)) (Some "closed")) []
    = Some result
    ∧ (sent result = None ↔ is_Some (returned result)).
Proof.
  exists (mkFetched None (Some (Foreign "closed"))).
  split; [reflexivity|].
  apply (FetchRaw_sends_fragment_or_returns_error
           sample_client
           (Body "{}" (inr (Some web_document)) (Some "closed")) []).
  reflexivity.
Defined.

(** ** The transformer: panics, the empty fragment, what a fragment holds *)

(** X7. The transformer panics exactly when a surviving entry holds a [nil]
    pointer (a [null] router, a [null] service or a service without a
    load balancer), whatever the visiting order. *)
Theorem transformer_panics_exactly_on_nil (c : Client)
    (source : HTTPConfiguration) (order : list (string * option Router)) :
  visits (Routers source) order →
  prepareResponse_in c (document source) order = None
  ↔ panic_free source = false.
Proof.
  intros Hvisits. split.
  - intros Hpanic. destruct (panic_free source) eqn:Hfree; [|done].
    pose proof (panic_free_visits source order Hfree Hvisits) as Hptr.
    unfold prepareResponse_in in Hpanic. simpl in Hpanic.
    destruct (range_Routers_returns c source order (mkConfiguration None)
                Hptr) as [output Hrun].
    congruence.
  - intros Hfree%bool_decide_eq_false.
    apply map_not_Forall in Hfree as (key & item & Hitem & Hbad);
      [|apply _].
    unfold prepareResponse_in. simpl.
    apply (range_Routers_panics c source order _ key item).
    + by apply (visits_elem_of source order).
    + destruct (survives source key); [done|]. by destruct Hbad.
    + destruct (dereferenceable source key item); [|done]. by destruct Hbad.
Qed.

Lemma transformer_panics_exactly_on_nil_witness :
  prepareResponse_in sample_client (document internal_document)
                     (map_to_list (Routers internal_document)) ≠ None.
Proof.
  intros Hpanic.
  apply (transformer_panics_exactly_on_nil
           sample_client internal_document
           (map_to_list (Routers internal_document))) in Hpanic.
  - vm_compute in Hpanic. discriminate Hpanic.
  - vm_compute. reflexivity.
Defined.




Lemma HTTP_allocated c source order init output :
  range_Routers c source order init = Some output →
  is_Some (HTTP output)
  ↔ is_Some (HTTP init)
    ∨ Exists (λ entry, survives source entry.1 = true) order.
Proof.
  revert init. induction order as [|[key item] order IH]; intros init; simpl.
  - intros [= <-]. rewrite Exists_nil. tauto.
  - destruct (loop_body c source key item init) as [output'|] eqn:Hbody;
      [|done].
    simpl. intros Hrange. rewrite (IH output' Hrange), Exists_cons. simpl.
    apply loop_body_Some in Hbody
      as [[Hkey ->]|(name & router & balancer & Hsurv & ->)].
    + rewrite Hkey. intuition discriminate.
    + apply survivor_survives in Hsurv. rewrite Hsurv. simpl.
      intuition eauto.
Qed.

(** X8. The fragment the transformer returns has a [nil] HTTP section exactly
    when no visited router survives the two guards; otherwise the section
    is allocated. *)
Theorem fragment_is_nil_iff_nothing_survives (c : Client)
    (source : HTTPConfiguration) (order : list (string * option Router))
    (output : Configuration) :
  prepareResponse_in c (document source) order = Some output →
  HTTP output = None
  ↔ Forall (λ entry, survives source entry.1 = false) order.
Proof.
  unfold prepareResponse_in. simpl. intros Hrange.
  pose proof (HTTP_allocated c source order _ output Hrange) as Halloc.
  simpl in Halloc. rewrite eq_None_not_Some, Halloc. split.
  - intros Hnone. apply Forall_forall. intros entry Hin.
    destruct (survives source entry.1) eqn:Hkey; [|done].
    destruct Hnone. right. apply Exists_exists. eauto.
  - intros Hall [[? [=]]|(entry & Hin & Hkey)%Exists_exists].
    rewrite Forall_forall in Hall. rewrite (Hall entry Hin) in Hkey. done.
Qed.

Lemma fragment_is_nil_iff_nothing_survives_witness :
  HTTP (mkConfiguration None) = None
  ↔ Forall (λ entry, survives orphan_document entry.1 = false)
           (map_to_list (Routers orphan_document)).
Proof.
  apply (fragment_is_nil_iff_nothing_survives sample_tls_client).
  vm_compute. reflexivity.
Defined.

Lemma emit_Routers_mono c name router balancer h k :
  is_Some (Routers h !! k) →
  is_Some (Routers (emit c name router balancer h) !! k).
Proof.
  intros Hk. unfold emit. destruct (resolver c); simpl.
  - apply lookup_insert_is_Some'. right.
    apply lookup_insert_is_Some'. by right.
  - apply lookup_insert_is_Some'. by right.
Qed.

(** Every surviving entry has a router under its derived name. *)
Lemma router_present c source order output key item name router balancer :
  range_Routers c source order (mkConfiguration None) = Some output →
  (key, item) ∈ order →
  survivor c source key item name router balancer →
  is_Some (Routers (fragment output) !! name).
Proof.
  intros Hrange. revert key item name router balancer.
  apply (range_Routers_invariant c source
    (λ done h, ∀ key item name router balancer,
       (key, item) ∈ done →
       survivor c source key item name router balancer →
       is_Some (Routers h !! name))
    order) with (init := mkConfiguration None); [| | |done].
  - intros done key' item' h _ Hkey' IH key item name router balancer
      [?|[= -> ->]%list_elem_of_singleton]%elem_of_app Hsurv; [eauto|].
    apply survivor_survives in Hsurv. congruence.
  - intros done key' item' name' router' balancer' h _ Hsurv' IH
      key item name router balancer Hmem Hsurv.
    apply elem_of_app in Hmem as [?|[= -> ->]%list_elem_of_singleton].
    + apply emit_Routers_mono. eauto.
    + destruct Hsurv as (_ & Hname & _), Hsurv' as (_ & Hname' & _).
      assert (name' = name) as -> by congruence.
      rewrite emit_Routers_plain. by eexists.
  - intros ????? []%elem_of_nil.
Qed.

(** X9. A fragment is closed under its references: every router is a non-nil
    entry whose service reference names a service of the fragment, under a
    key that also holds a router, and every middleware a router refers
    to is the redirection defined in the fragment. *)
Theorem fragment_references_resolve (c : Client)
    (source : HTTPConfiguration) (order : list (string * option Router))
    (output : Configuration) :
  prepareResponse_in c (document source) order = Some output →
  ∀ k v,
    Routers (fragment output) !! k = Some v →
    ∃ router service,
      v = Some router
      ∧ Services (fragment output) !! Router_Service router
        = Some (Some service)
      ∧ is_Some (Routers (fragment output) !! Router_Service router)
      ∧ Forall (λ m, Middlewares (fragment output) !! m
                     = Some (Some http2https))
               (Router_Middlewares router).
Proof.
  unfold prepareResponse_in. simpl. intros Hrange k v Hk.
  destruct (routers_provenance c source order output k v Hrange Hk)
    as (key & item & name & router & balancer & Hin & Hsurv & Hcases).
  destruct (service_present c source order output key item name router
              balancer Hrange Hin Hsurv) as [service Hservice].
  pose proof (router_present c source order output key item name router
                balancer Hrange Hin Hsurv) as Hrouter.
  destruct Hcases as [[-> ->]|(r & Hr & -> & ->)].
  - exists (plain_router c name router), service. simpl.
    split_and!; [done..|].
    destruct (resolver c) as [r|] eqn:Hr; [|by constructor].
    repeat constructor.
    rewrite (middlewares_shape c source order output Hrange).
    rewrite bool_decide_eq_true_2; [done|]. split; [by rewrite Hr|].
    apply Exists_exists. exists (key, item). split; [done|].
    by eapply survivor_survives.
  - exists (secure_router name router r), service. simpl.
    by split_and!.
Qed.

Lemma fragment_references_resolve_witness :
  ∃ output,
    prepareResponse_in sample_tls_client (document clash_document)
                       docker_first = Some output
    ∧ ∃ service,
        Services (fragment output) !! "web-a.example" = Some (Some service).
Proof.
  eexists. split; [vm_compute; reflexivity|].
  edestruct (fragment_references_resolve
               sample_tls_client clash_document docker_first _ eq_refl
               "web-a.example-secure")
    as (router & service & Hrouter & Hservice & _).
  { vm_compute. reflexivity. }
  injection Hrouter as <-. by exists service.
Defined.

(** X10. Nothing of the source but the rules reaches a fragment: every service
    holds a load balancer whose servers all carry the URI of the
    endpoint's web port, the only middleware is the redirection
    [http2https], present only with a resolver, and every router carries
    the rule of a visited source router, no middleware but the
    redirection, and no TLS configuration but that of the resolver. *)
Theorem fragment_holds_only_rewritten_entries (c : Client)
    (source : HTTPConfiguration) (order : list (string * option Router))
    (output : Configuration) :
  prepareResponse_in c (document source) order = Some output →
  (∀ k v, Services (fragment output) !! k = Some v →
     ∃ servers,
       v = Some (mkService (Some (mkServersLoadBalancer servers)))
       ∧ Forall (λ server,
                   URL server
                   = buildURI (endpoint c) (WEB (endpoint c)) defaultPath)
                servers)
  ∧ (∀ k v, Middlewares (fragment output) !! k = Some v →
       k = "http2https" ∧ v = Some http2https ∧ is_Some (resolver c))
  ∧ (∀ k v, Routers (fragment output) !! k = Some v →
       ∃ router key original,
         v = Some router
         ∧ (key, Some original) ∈ order
         ∧ Router_Rule router = Router_Rule original
         ∧ (Router_Middlewares router = []
            ∨ Router_Middlewares router = ["http2https"])
         ∧ (Router_TLS router = None
            ∨ Router_TLS router = mkRouterTLSConfig <$> resolver c)).
Proof.
  unfold prepareResponse_in. simpl. intros Hrange. split_and!.
  - intros k v Hk.
    destruct (services_provenance c source order output k v Hrange Hk)
      as (key & item & router & balancer & _ & _ & ->).
    eexists. split; [done|]. rewrite rewrite_servers_replicate.
    by apply Forall_replicate.
  - intros k v. rewrite (middlewares_shape c source order output Hrange).
    case_bool_decide as Hsome; [|by rewrite lookup_empty].
    intros [<- <-]%lookup_singleton_Some. by destruct Hsome.
  - intros k v Hk.
    destruct (routers_provenance c source order output k v Hrange Hk)
      as (key & item & name & router & balancer & Hin
          & (_ & _ & -> & _) & [[-> ->]|(r & Hr & -> & ->)]).
    + exists (plain_router c name router), key, router. simpl.
      split_and!; [done..| |by left].
      destruct (resolver c); [by right|by left].
    + exists (secure_router name router r), key, router. simpl.
      split_and!; [done..|by left|right; by rewrite Hr].
Qed.

Lemma fragment_holds_only_rewritten_entries_witness :
  ∃ output,
    prepareResponse_in sample_tls_client (document clash_document)
                       file_first = Some output
    ∧ ∀ k v, Middlewares (fragment output) !! k = Some v →
             k = "http2https".
Proof.
  eexists. split; [vm_compute; reflexivity|].
  intros k v Hk.
  by edestruct (fragment_holds_only_rewritten_entries
                  sample_tls_client clash_document file_first _ eq_refl)
    as (_ & Hmiddlewares & _); edestruct Hmiddlewares as (? & _).
Defined.

(** ** The visiting order *)

Section order_independence.

Context (c : Client) (source : HTTPConfiguration).

Implicit Types order : list (string * option Router).

(** What the fragment holds for a surviving entry whose router keys no
    other surviving entry writes. *)
Lemma survivor_entries order output key item name router balancer :
  visits (Routers source) order →
  range_Routers c source order (mkConfiguration None) = Some output →
  (key, item) ∈ order →
  survivor c source key item name router balancer →
  others_avoid (router_keys_written c) source key
               (router_keys_written c key) = true →
  Routers (fragment output) !! name
  = Some (Some (plain_router c name router))
  ∧ (∀ r, resolver c = Some r →
          Routers (fragment output) !! (name +:+ "-secure")
          = Some (Some (secure_router name router r)))
  ∧ Services (fragment output) !! name
    = Some (Some (rewritten_service c balancer)).
Proof.
  intros Hvisits Hrange Hin Hsurv Hothers.
  pose proof (survivor_survives c source _ _ _ _ _ Hsurv) as Hkey.
  pose proof Hsurv as (Hint & Hname & -> & service & Hsvc & Hlb).
  assert (∀ key' item' name' router' balancer' k,
            k ∈ router_keys_written c key →
            (key', item') ∈ order → key' ≠ key →
            survivor c source key' item' name' router' balancer' →
            k ∉ router_keys_written c key') as Havoid.
  { intros key' item' name' router' balancer' k Hk Hin' Hne Hsurv'.
    pose proof (others_avoid_visits source _ _ _ order key' item'
                  Hothers Hvisits Hin' Hne
                  (survivor_survives c source _ _ _ _ _ Hsurv')) as Hall.
    by apply (proj1 (Forall_forall _ _) Hall). }
  assert (∀ item', (key, item') ∈ order → item' = Some router) as Hfun.
  { intros item' Hin'.
    apply (visits_elem_of source order) in Hin, Hin'; [|done..].
    congruence. }
  assert (∀ name' router' balancer',
            survivor c source key (Some router) name' router' balancer' →
            name' = name ∧ router' = router ∧ balancer' = balancer)
    as Hsame.
  { intros name' router' balancer'
      (_ & Hname' & [= <-] & service' & Hsvc' & Hlb').
    split_and!; congruence. }
  assert (name ∈ router_keys_written c key) as Hplain.
  { unfold router_keys_written. rewrite Hname. by left. }
  split_and!.
  - apply (last_writer c source Routers _ _ order key (Some router));
      try done.
    + intros name' router' balancer' h (-> & -> & _)%Hsame.
      apply emit_Routers_plain.
    + intros key' item' name' router' balancer' h Hin' Hne Hsurv'.
      apply (emit_Routers_frame c key'); [by destruct Hsurv' as (_ & ? & _)|].
      eauto.
  - intros r Hr.
    apply (last_writer c source Routers _ _ order key (Some router));
      try done.
    + intros name' router' balancer' h (-> & -> & _)%Hsame.
      by apply emit_Routers_secure.
    + intros key' item' name' router' balancer' h Hin' Hne Hsurv'.
      apply (emit_Routers_frame c key'); [by destruct Hsurv' as (_ & ? & _)|].
      eapply Havoid; [|done..].
      unfold router_keys_written. rewrite Hname, Hr. right. by left.
  - apply (last_writer c source Services _ _ order key (Some router));
      try done.
    + intros name' router' balancer' h (-> & _ & ->)%Hsame.
      apply emit_Services_own.
    + intros key' item' name' router' balancer' h Hin' Hne Hsurv'.
      apply emit_Services_frame. intros ->.
      apply (Havoid key' item' name' router' balancer' name'); try done.
      unfold router_keys_written.
      destruct Hsurv' as (_ & -> & _). by left.
Qed.

Lemma collision_free_others_avoid order key item :
  collision_free c source = true →
  visits (Routers source) order →
  (key, item) ∈ order →
  survives source key = true →
  others_avoid (router_keys_written c) source key
               (router_keys_written c key) = true.
Proof.
  intros Hfree%bool_decide_eq_true Hvisits Hin Hkey.
  apply (Hfree key item); [|done]. by apply (visits_elem_of source order).
Qed.

(** Without collisions a fragment holds under every key what any other
    visiting order puts there. *)
Lemma fragments_agree order1 order2 output1 output2 :
  collision_free c source = true →
  visits (Routers source) order1 →
  visits (Routers source) order2 →
  range_Routers c source order1 (mkConfiguration None) = Some output1 →
  range_Routers c source order2 (mkConfiguration None) = Some output2 →
  (∀ k v, Routers (fragment output1) !! k = Some v →
          Routers (fragment output2) !! k = Some v)
  ∧ (∀ k v, Services (fragment output1) !! k = Some v →
            Services (fragment output2) !! k = Some v).
Proof.
  intros Hfree Hvisits1 Hvisits2 Hrange1 Hrange2.
  assert (∀ key item, (key, item) ∈ order1 → (key, item) ∈ order2) as Hsub.
  { intros key item Hin. apply (visits_elem_of source order2); [done|].
    by apply (visits_elem_of source order1). }
  split.
  - intros k v Hk.
    destruct (routers_provenance c source order1 output1 k v Hrange1 Hk)
      as (key & item & name & router & balancer & Hin & Hsurv & Hcases).
    destruct (survivor_entries order2 output2 key item name router balancer)
      as (Hplain & Hsecure & _); try done; [by apply Hsub|..].
    { apply (collision_free_others_avoid order1 key item); try done.
      by eapply survivor_survives. }
    destruct Hcases as [[-> ->]|(r & Hr & -> & ->)]; [done|by apply Hsecure].
  - intros k v Hk.
    destruct (services_provenance c source order1 output1 k v Hrange1 Hk)
      as (key & item & router & balancer & Hin & Hsurv & ->).
    destruct (survivor_entries order2 output2 key item k router balancer)
      as (_ & _ & Hservice); try done; [by apply Hsub|].
    apply (collision_free_others_avoid order1 key item); try done.
    by eapply survivor_survives.
Qed.

Lemma lookup_agree {A} (m1 m2 : gmap string A) :
  (∀ k v, m1 !! k = Some v → m2 !! k = Some v) →
  (∀ k v, m2 !! k = Some v → m1 !! k = Some v) →
  m1 = m2.
Proof.
  intros H12 H21. apply map_eq. intros k.
  destruct (m1 !! k) as [v|] eqn:H1.
  - symmetry. by apply H12.
  - destruct (m2 !! k) as [v|] eqn:H2; [|done].
    apply H21 in H2. congruence.
Qed.

End order_independence.

(** X11. When no two surviving router keys write a common router key, the
    transformer returns the same fragment, or panics alike, in every
    order in which the map of routers can be visited. *)
Theorem prepareResponse_order_independent (c : Client)
    (source : HTTPConfiguration)
    (order1 order2 : list (string * option Router)) :
  collision_free c source = true →
  visits (Routers source) order1 →
  visits (Routers source) order2 →
  prepareResponse_in c (document source) order1
  = prepareResponse_in c (document source) order2.
Proof.
  intros Hfree Hvisits1 Hvisits2.
  destruct (panic_free source) eqn:Hpanic.
  2:{ rewrite (proj2 (prepareResponse_in_panics_iff c source order1 Hvisits1))
        by done.
      by rewrite (proj2 (prepareResponse_in_panics_iff c source order2
                           Hvisits2)). }
  destruct (prepareResponse_in_returns c source order1 Hvisits1 Hpanic)
    as [output1 Hrun1].
  destruct (prepareResponse_in_returns c source order2 Hvisits2 Hpanic)
    as [output2 Hrun2].
  rewrite Hrun1, Hrun2. f_equal.
  unfold prepareResponse_in in Hrun1, Hrun2. simpl in Hrun1, Hrun2.
  assert (∀ P : string * option Router → Prop,
            Exists P order1 ↔ Exists P order2) as Hexists.
  { intros P. rewrite !Exists_exists. unfold visits in *.
    split; intros (entry & Hin & ?); exists entry; split; try done.
    - by rewrite Hvisits2, <- Hvisits1.
    - by rewrite Hvisits1, <- Hvisits2. }
  pose proof (HTTP_allocated c source order1 _ output1 Hrun1) as Halloc1.
  pose proof (HTTP_allocated c source order2 _ output2 Hrun2) as Halloc2.
  rewrite Hexists in Halloc1. rewrite <- Halloc2 in Halloc1.
  destruct (fragments_agree c source order1 order2 output1 output2)
    as [Hrouters12 Hservices12]; try done.
  destruct (fragments_agree c source order2 order1 output2 output1)
    as [Hrouters21 Hservices21]; try done.
  pose proof (middlewares_shape c source order1 output1 Hrun1) as Hmw1.
  pose proof (middlewares_shape c source order2 output2 Hrun2) as Hmw2.
  assert (Middlewares (fragment output1) = Middlewares (fragment output2))
    as Hmw.
  { rewrite Hmw1, Hmw2. erewrite bool_decide_ext; [done|].
    by rewrite Hexists. }
  apply lookup_agree in Hrouters12; [|done].
  apply lookup_agree in Hservices12; [|done].
  destruct output1 as [[h1|]], output2 as [[h2|]]; simpl in *.
  - destruct h1, h2; simpl in *. by rewrite Hrouters12, Hservices12, Hmw.
  - by destruct (proj1 Halloc1) as [? [=]].
  - by destruct (proj2 Halloc1) as [? [=]].
  - done.
Qed.

(** Two visiting orders of [two_routes_document]. *)
Lemma two_routes_orders :
  visits (Routers two_routes_document) web_first
  ∧ visits (Routers two_routes_document) api_first.
Proof.
  unfold visits. split; vm_compute;
    repeat first [reflexivity | apply perm_swap | apply perm_skip].
Qed.

Lemma prepareResponse_order_independent_witness :
  prepareResponse_in sample_tls_client (document two_routes_document)
                     web_first
  = prepareResponse_in sample_tls_client (document two_routes_document)
                       api_first.
Proof.
  apply prepareResponse_order_independent.
  - vm_compute. reflexivity.
  - apply two_routes_orders.
  - apply two_routes_orders.
Defined.

(** ** What the transformer reads *)

Lemma loop_body_same_shape c source1 source2 key item1 item2 output :
  rule_of item1 = rule_of item2 →
  server_count <$> (Services source1 !! key)
  = server_count <$> (Services source2 !! key) →
  loop_body c source1 key item1 output = loop_body c source2 key item2 output.
Proof.
  intros Hrule Hcount. unfold loop_body.
  destruct (strings.HasSuffix key "@internal"); [done|].
  destruct (derived_name c key) as [name|]; simpl; [|done].
  destruct (Services source1 !! key) as [service1|],
           (Services source2 !! key) as [service2|];
    simpl in Hcount; try done.
  injection Hcount as Hcount.
  destruct item1 as [router1|], item2 as [router2|]; simpl in Hrule;
    try done.
  injection Hrule as Hrule. simpl. rewrite Hrule.
  destruct service1 as [[[balancer1|]]|], service2 as [[[balancer2|]]|];
    simpl in Hcount; try done.
  injection Hcount as Hcount. simpl.
  by rewrite !rewrite_servers_replicate, Hcount.
Qed.

(** X12. The fragment depends on the source only through the keys and rules
    of its routers, and through which keys have a service and with how
    many servers: the backend addresses, and the service reference,
    middlewares and TLS configuration of the source routers, are
    discarded. *)
Theorem fragment_depends_on_rules_and_server_counts (c : Client)
    (source1 source2 : HTTPConfiguration)
    (order1 order2 : list (string * option Router)) :
  prod_map id rule_of <$> order1 = prod_map id rule_of <$> order2 →
  server_count <$> Services source1 = server_count <$> Services source2 →
  prepareResponse_in c (document source1) order1
  = prepareResponse_in c (document source2) order2.
Proof.
  intros Horder Hservices. unfold prepareResponse_in. simpl.
  generalize (mkConfiguration None) as init.
  revert order2 Horder.
  induction order1 as [|[key item1] order1 IH];
    intros [|[key2 item2] order2] Horder init; try done.
  injection Horder as -> Hrule Horder. simpl.
  rewrite (loop_body_same_shape c source1 source2 key2 item1 item2 init).
  - destruct (loop_body c source2 key2 item2 init); simpl; [by apply IH|done].
  - done.
  - by rewrite <- !lookup_fmap, Hservices.
Qed.

Lemma fragment_depends_on_rules_and_server_counts_witness :
  prepareResponse_in sample_tls_client (document web_document_variant)
                     (map_to_list (Routers web_document_variant))
  = prepareResponse_in sample_tls_client (document web_document)
                       (map_to_list (Routers web_document)).
Proof.
  apply fragment_depends_on_rules_and_server_counts.
  - vm_compute. reflexivity.
  - vm_compute. reflexivity.
Defined.

(** ** Names *)

(** X13. Two router keys are re-homed under the same name exactly when they
    have the same segment before their first [@]: the provider qualifier,
    and whatever else follows the first [@], plays no part. *)
Theorem derived_names_collide_iff (c : Client) (key1 key2 : string) :
  derived_name c key1 = derived_name c key2
  ↔ ∃ base, before_first "@" key1 base ∧ before_first "@" key2 base.
Proof.
  destruct (before_first_derived_name c key1) as (base1 & Hbase1 & ->).
  destruct (before_first_derived_name c key2) as (base2 & Hbase2 & ->).
  split.
  - intros [= Heq]. apply append_inv_r in Heq as ->. by exists base2.
  - intros (base & Hkey1 & Hkey2).
    rewrite (before_first_unique _ _ _ _ Hbase1 Hkey1).
    by rewrite (before_first_unique _ _ _ _ Hbase2 Hkey2).
Qed.

(** X14. For a host without a byte that is escaped and a path that starts with
    [/] and needs no escaping, the URI is the scheme, [://], the host,
    [:], the port in decimal and the path, letter for letter. *)
Theorem buildURI_literal (e : Endpoint) (port : Z) (path rest : string) :
  plain_host (Host e) = true →
  path = String "/" rest →
  url.escape path url.encodePath = path →
  buildURI e port path
  = match Endpoint_TLS e with Some _ => "https" | None => "http" end
    +:+ "://" +:+ Host e +:+ ":" +:+ pretty port +:+ path.
Proof.
  intros Hhost Hroot Hpath.
  assert (Host e +:+ ":" +:+ pretty port ≠ "") as Hne.
  { intros Heq. apply (f_equal String.length) in Heq.
    rewrite !length_append in Heq. simpl in Heq. lia. }
  assert (url.escape (Host e +:+ ":" +:+ pretty port) url.encodeHost
          = Host e +:+ ":" +:+ pretty port) as Hesc.
  { apply escape_plain_host. rewrite !plain_host_append, Hhost.
    by rewrite plain_host_pretty_Z. }
  assert (∀ scheme host,
            rooted (url.EscapedPath (url.mkURL scheme host path)) = path)
    as Hrooted.
  { intros scheme host. unfold url.EscapedPath. simpl.
    rewrite Hpath. by rewrite Hroot. }
  unfold buildURI, buildURI_url, Sprintf_host_port.
  destruct (Endpoint_TLS e); simpl;
    rewrite URL_String_authority by done;
    by rewrite Hesc, Hrooted, !append_assoc.
Qed.

Lemma buildURI_literal_witness :
  buildURI insecure_endpoint 9090 defaultRawPath
  = "https://b.example:9090/api/rawdata".
Proof.
  apply (buildURI_literal insecure_endpoint 9090 defaultRawPath
                          "api/rawdata").
  - vm_compute. reflexivity.
  - reflexivity.
  - vm_compute. reflexivity.
Defined.

(** ** The order of the probes *)

Section probe_order.

Context `{Network W}.



End probe_order.


(** ** The size of a fragment *)

Lemma map_size_insert_le {A} (m : gmap string A) k v :
  (size (<[k := v]> m) ≤ S (size m))%nat.
Proof. rewrite map_size_insert. destruct (m !! k); simpl; lia. Qed.

Lemma survivors_snoc source done key item :
  survivors source (done ++ [(key, item)])
  = (survivors source done + if survives source key then 1 else 0)%nat.
Proof.
  unfold survivors. rewrite filter_app, length_app. f_equal.
  rewrite filter_singleton; [|exact []]. simpl.
  destruct (survives source key); by case_decide.
Qed.

(** X16. A fragment holds at most one service for each surviving router, at
    most one router for each without a resolver and at most two with one,
    and at most one middleware. *)
Theorem fragment_size_bounds (c : Client) (source : HTTPConfiguration)
    (order : list (string * option Router)) (output : Configuration) :
  prepareResponse_in c (document source) order = Some output →
  (size (Services (fragment output)) ≤ survivors source order)%nat
  ∧ (size (Routers (fragment output))
     ≤ routers_per_survivor c * survivors source order)%nat
  ∧ (size (Middlewares (fragment output)) ≤ 1)%nat.
Proof.
  unfold prepareResponse_in. simpl. intros Hrange.
  assert ((size (Services (fragment output)) ≤ survivors source order)%nat
          ∧ (size (Routers (fragment output))
             ≤ routers_per_survivor c * survivors source order)%nat)
    as [Hservices Hrouters].
  { revert Hrange.
    apply (range_Routers_invariant c source
      (λ done h,
         (size (Services h) ≤ survivors source done)%nat
         ∧ (size (Routers h)
            ≤ routers_per_survivor c * survivors source done)%nat)
      order) with (init := mkConfiguration None).
    - intros done key item h _ Hkey [Hs Hr].
      rewrite survivors_snoc, Hkey. split; lia.
    - intros done key item name router balancer h _ Hsurv [Hs Hr].
      apply survivor_survives in Hsurv.
      rewrite survivors_snoc, Hsurv. unfold emit, routers_per_survivor in *.
      destruct (resolver c); simpl; split.
      + etrans; [apply map_size_insert_le|]. lia.
      + etrans; [apply map_size_insert_le|].
        etrans; [apply le_n_S, map_size_insert_le|]. lia.
      + etrans; [apply map_size_insert_le|]. lia.
      + etrans; [apply map_size_insert_le|]. lia.
    - simpl. rewrite !map_size_empty. split; lia. }
  split_and!; [done..|].
  rewrite (middlewares_shape c source order output Hrange).
  case_bool_decide; [rewrite map_size_singleton|rewrite map_size_empty]; lia.
Qed.

Lemma fragment_size_bounds_witness :
  ∃ output,
    prepareResponse_in sample_tls_client (document clash_document)
                       docker_first = Some output
    ∧ (size (Routers (fragment output)) ≤ 4)%nat.
Proof.
  eexists. split; [vm_compute; reflexivity|].
  by edestruct (fragment_size_bounds
                  sample_tls_client clash_document docker_first _ eq_refl)
    as (_ & Hrouters & _).
Defined.

(** ** The resolver and the services *)

Lemma emit_Services c name router balancer h :
  Services (emit c name router balancer h)
  = <[name := Some (rewritten_service c balancer)]> (Services h).
Proof. unfold emit. by destruct (resolver c). Qed.

Lemma range_Routers_same_services c1 c2 source order init1 init2 out1 out2 :
  endpoint c1 = endpoint c2 →
  Services (fragment init1) = Services (fragment init2) →
  range_Routers c1 source order init1 = Some out1 →
  range_Routers c2 source order init2 = Some out2 →
  Services (fragment out1) = Services (fragment out2).
Proof.
  intros Hendpoint. revert init1 init2.
  induction order as [|[key item] order IH]; intros init1 init2 Hinit; simpl.
  - by intros [= <-] [= <-].
  - destruct (loop_body c1 source key item init1) as [next1|] eqn:Hbody1;
      [|done].
    destruct (loop_body c2 source key item init2) as [next2|] eqn:Hbody2;
      [|done].
    simpl. apply IH.
    apply loop_body_Some in Hbody1
      as [[Hkey1 ->]|(name1 & router1 & balancer1 & Hsurv1 & ->)];
      apply loop_body_Some in Hbody2
        as [[Hkey2 ->]|(name2 & router2 & balancer2 & Hsurv2 & ->)].
    + done.
    + apply survivor_survives in Hsurv2. congruence.
    + apply survivor_survives in Hsurv1. congruence.
    + rewrite !fragment_document, !emit_Services, Hinit.
      destruct Hsurv1 as (_ & Hname1 & _ & service1 & Hsvc1 & Hlb1).
      destruct Hsurv2 as (_ & Hname2 & _ & service2 & Hsvc2 & Hlb2).
      unfold derived_name in Hname1, Hname2. rewrite Hendpoint in Hname1.
      assert (name1 = name2) as -> by congruence.
      assert (balancer1 = balancer2) as -> by congruence.
      unfold rewritten_service, rewrite_servers. by rewrite Hendpoint.
Qed.

(** X17. The resolver changes routers and middlewares only: for one endpoint,
    document and visiting order, the services of the fragment are the
    same with any resolver and with none, and every router key emitted
    without a resolver is emitted with one. *)
Theorem resolver_leaves_services (c1 c2 : Client)
    (source : HTTPConfiguration) (order : list (string * option Router))
    (output1 output2 : Configuration) :
  endpoint c1 = endpoint c2 →
  prepareResponse_in c1 (document source) order = Some output1 →
  prepareResponse_in c2 (document source) order = Some output2 →
  Services (fragment output1) = Services (fragment output2)
  ∧ (resolver c1 = None →
     ∀ k, is_Some (Routers (fragment output1) !! k) →
          is_Some (Routers (fragment output2) !! k)).
Proof.
  unfold prepareResponse_in. simpl. intros Hendpoint Hrange1 Hrange2. split.
  - by eapply range_Routers_same_services.
  - intros Hres k [v Hk].
    destruct (routers_provenance c1 source order output1 k v Hrange1 Hk)
      as (key & item & name & router & balancer & Hin
          & (Hint & Hname & Hitem & Hsvc) & [[-> _]|(r & Hr & _)]);
      [|congruence].
    apply (router_present c2 source order output2 key item name router
             balancer Hrange2 Hin).
    split_and!; try done. unfold derived_name in *. by rewrite <- Hendpoint.
Qed.

Lemma resolver_leaves_services_witness :
  ∃ output1 output2,
    prepareResponse_in sample_client (document clash_document) file_first
    = Some output1
    ∧ prepareResponse_in sample_tls_client (document clash_document)
                         file_first = Some output2
    ∧ Services (fragment output1) = Services (fragment output2).
Proof.
  eexists _, _. split_and!; [vm_compute; reflexivity..|].
  by edestruct (resolver_leaves_services
                  sample_client sample_tls_client clash_document file_first
                  _ _ eq_refl eq_refl eq_refl) as [Hservices _].
Defined.

